(** * The custom MCP server manager ([src/services/mcp-manager.js])

    A shallow embedding of [MCPServerManager]: its three maps, the child
    processes it spawns, the timers it arms and the events it emits, run
    on an explicit event loop.  The calls into the logger leave no trace
    in the manager and are not part of the model.  Timers may fire in
    any order: the scenarios fire them in the order of their delays. *)

From stdpp Require Import base option list gmap strings.
From Stdlib Require Import ZArith Lia.

Local Open Scope string_scope.
Local Open Scope list_scope.
Local Open Scope nat_scope.

(** ** The registry *)

Module MCPRingLayer.
Definition LAYER_0 : Z := 0.
Definition LAYER_1 : Z := 1.
Definition LAYER_2 : Z := 2.
End MCPRingLayer.

Record Config := {
  name : string;
  layer : Z;
  path : string;
  enabled : bool;
  tools : list string;
  resources : list string;
  prompts : option (list string)
}.

#[global] Instance Config_eq_dec : EqDecision Config.
Proof. solve_decision. Defined.

(** What the module reads from its host when it is loaded: the
    environment variables, the directory of the file, and [path.join]. *)
Record Host := {
  process_env : gmap string string;
  dirname : string;
  join : list string → string
}.

(** [process.env.X || d] *)
Definition env_or (host : Host) (var d : string) : string :=
  match process_env host !! var with
  | Some s => if decide (s = "") then d else s
  | None => d
  end.

(** [process.env.X !== 'false'] *)
Definition env_not_false (host : Host) (var : string) : bool :=
  bool_decide (process_env host !! var ≠ Some "false").

Definition server_path (host : Host) (var dir : string) : string :=
  env_or host var
    (join host [dirname host; ".."; ".."; ".."; "bambisleep-chat-catgirl";
                "mcp-servers"; dir; "index.js"]).

(** [Object.entries(CUSTOM_MCP_SERVERS)], in the order of the literal. *)
Definition CUSTOM_MCP_SERVERS (host : Host) : list (string * Config) :=
  [ ("bambisleep-hypnosis-mcp",
     {| name := "BambiSleep™ Hypnosis Audio Management";
        layer := MCPRingLayer.LAYER_2;
        path := server_path host "HYPNOSIS_MCP_PATH" "bambisleep-hypnosis-mcp";
        enabled := env_not_false host "ENABLE_HYPNOSIS_MCP";
        tools := ["add_audio_file"; "search_audio"; "create_playlist";
                  "get_playlist"; "list_triggers"];
        resources := ["bambisleep://audio/library"; "bambisleep://playlists/{id}"];
        prompts := None |});
    ("aigf-personality-mcp",
     {| name := "AI Girlfriend Personality Management";
        layer := MCPRingLayer.LAYER_2;
        path := server_path host "PERSONALITY_MCP_PATH" "aigf-personality-mcp";
        enabled := env_not_false host "ENABLE_PERSONALITY_MCP";
        tools := ["create_personality"; "switch_personality"; "update_mood";
                  "add_context"; "get_trigger_response"; "list_profiles"];
        resources := ["aigf://profile/active"; "aigf://profiles/{id}"];
        prompts := Some ["personality_greeting"; "personality_response"] |});
    ("trigger-system-mcp",
     {| name := "Hypnotic Trigger Management";
        layer := MCPRingLayer.LAYER_2;
        path := server_path host "TRIGGER_SYSTEM_MCP_PATH" "trigger-system-mcp";
        enabled := env_not_false host "ENABLE_TRIGGER_SYSTEM_MCP";
        tools := ["register_trigger"; "activate_trigger"; "search_triggers";
                  "get_trigger"; "get_activation_history"; "get_compliance_stats"];
        resources := ["triggers://registry"; "triggers://logs"; "triggers://compliance"];
        prompts := None |});
    ("chat-analytics-mcp",
     {| name := "Chat Analytics & Metrics";
        layer := MCPRingLayer.LAYER_2;
        path := server_path host "ANALYTICS_MCP_PATH" "chat-analytics-mcp";
        enabled := env_not_false host "ENABLE_ANALYTICS_MCP";
        tools := ["start_session"; "end_session"; "record_message";
                  "record_trigger_activation"; "record_conversion";
                  "get_analytics"; "get_user_engagement"];
        resources := ["analytics://sessions/active"; "analytics://sessions/completed";
                      "analytics://users/engagement"; "analytics://conversions";
                      "analytics://summary"];
        prompts := None |}) ].

(** ** Runtime data *)

(** The metadata record stored in [this.servers].  [pid] is [None] when
    the child has no process id ([undefined] in the source). *)
Record ServerData := {
  config : Config;
  pid : option nat;
  startTime : string;
  status : string
}.

Inductive Signal := SIGTERM | SIGKILL.

(** A [ChildProcess] object on the heap.  The first two fields are the
    variables its [error] and [exit] listeners close over; [cp_live]
    says that the operating-system process behind the object has not
    been reaped yet, [killed] is the object's own flag, set by a [kill]
    that delivered its signal, and [cp_signals] lists the signals
    delivered so far. *)
Record ChildProcess := {
  cp_serverId : string;
  cp_config : Config;
  cp_pid : option nat;
  cp_live : bool;
  killed : bool;
  cp_signals : list Signal
}.

Inductive Event :=
| serverStarted (serverId : string) (cfg : Config)
| serverFailed (serverId : string) (error : string)
| serverError (serverId : string) (error : string)
| serverExited (serverId : string) (code : option Z) (signal : option string)
| serverMaxRetriesExceeded (serverId : string).

#[global] Instance Event_eq_dec : EqDecision Event.
Proof. solve_decision. Defined.

(** The callbacks handed to [setTimeout]: the relaunch armed by
    [handleServerFailure], and the rest of [shutdown] after its
    [await]. *)
Inductive Task :=
| RetryStart (serverId : string) (cfg : Config)
| ShutdownResume.

#[global] Instance Task_eq_dec : EqDecision Task.
Proof. solve_decision. Defined.

Record Timer := { delay : Z; task : Task }.

#[global] Instance Timer_eq_dec : EqDecision Timer.
Proof. solve_decision. Defined.

(** The manager ([servers], [processes], [connectionAttempts],
    [maxRetries]) together with what it acts on: the heap of child
    process objects, the pending timers, the events emitted so far and
    the server id of every evaluation of the [spawn] call. *)
Record World := {
  servers : gmap string ServerData;
  processes : gmap string nat;
  connectionAttempts : gmap string nat;
  maxRetries : nat;
  heap : list ChildProcess;
  timers : list Timer;
  emitted : list Event;
  spawned : list string
}.

Definition set_servers (f : gmap string ServerData → gmap string ServerData) (w : World) : World :=
  {| servers := f (servers w); processes := processes w;
     connectionAttempts := connectionAttempts w; maxRetries := maxRetries w;
     heap := heap w; timers := timers w; emitted := emitted w; spawned := spawned w |}.

Definition set_processes (f : gmap string nat → gmap string nat) (w : World) : World :=
  {| servers := servers w; processes := f (processes w);
     connectionAttempts := connectionAttempts w; maxRetries := maxRetries w;
     heap := heap w; timers := timers w; emitted := emitted w; spawned := spawned w |}.

Definition set_connectionAttempts (f : gmap string nat → gmap string nat) (w : World) : World :=
  {| servers := servers w; processes := processes w;
     connectionAttempts := f (connectionAttempts w); maxRetries := maxRetries w;
     heap := heap w; timers := timers w; emitted := emitted w; spawned := spawned w |}.

Definition set_heap (f : list ChildProcess → list ChildProcess) (w : World) : World :=
  {| servers := servers w; processes := processes w;
     connectionAttempts := connectionAttempts w; maxRetries := maxRetries w;
     heap := f (heap w); timers := timers w; emitted := emitted w; spawned := spawned w |}.

Definition set_timers (f : list Timer → list Timer) (w : World) : World :=
  {| servers := servers w; processes := processes w;
     connectionAttempts := connectionAttempts w; maxRetries := maxRetries w;
     heap := heap w; timers := f (timers w); emitted := emitted w; spawned := spawned w |}.

Definition set_emitted (f : list Event → list Event) (w : World) : World :=
  {| servers := servers w; processes := processes w;
     connectionAttempts := connectionAttempts w; maxRetries := maxRetries w;
     heap := heap w; timers := timers w; emitted := f (emitted w); spawned := spawned w |}.

Definition set_spawned (f : list string → list string) (w : World) : World :=
  {| servers := servers w; processes := processes w;
     connectionAttempts := connectionAttempts w; maxRetries := maxRetries w;
     heap := heap w; timers := timers w; emitted := emitted w; spawned := f (spawned w) |}.

(** [new MCPServerManager()] in a world where nothing has happened yet. *)
Definition constructor : World :=
  {| servers := ∅; processes := ∅; connectionAttempts := ∅; maxRetries := 3;
     heap := []; timers := []; emitted := []; spawned := [] |}.

(** ** Computations that may throw *)

Inductive Completion (A : Type) :=
| Normal (a : A)
| Throw (error : string).
Arguments Normal {A} a.
Arguments Throw {A} error.

Definition M (A : Type) : Type := World → World * Completion A.

#[global] Instance M_ret : MRet M := λ A a w, (w, Normal a).

#[global] Instance M_bind : MBind M := λ A B f m w,
  match m w with
  | (w', Normal a) => f a w'
  | (w', Throw e) => (w', Throw e)
  end.

(** [try { body } catch (error) { handler }] *)
Definition try_catch {A} (body : M A) (handler : string → M A) : M A := λ w,
  match body w with
  | (w', Normal a) => (w', Normal a)
  | (w', Throw e) => handler e w'
  end.

Definition modify (f : World → World) : M unit := λ w, (f w, Normal ()).
Definition read {A} (f : World → A) : M A := λ w, (w, Normal (f w)).
Definition exec {A} (m : M A) (w : World) : World := (m w).1.

(** ** What the manager asks of its surroundings *)

(** The outcome of evaluating the [spawn(...)] call in [startServer]:
    an exception is raised before anything is stored, or the call
    yields a child process object, whose [pid] is undefined when the
    operating system could not start the program.

    In the source the options literal of the call reads [process.env]
    inside the scope of the [const process] that the call initialises.
    That binding is still in its temporal dead zone there, so the
    evaluation, read to the letter, ends in a [ReferenceError] every
    time: [Sample.os_throws] below is that behaviour, and the one the
    scenarios run with.  The listeners that [startServer] attaches are
    written for a call that yields a child; the theorems quantify over
    every oracle. *)
Inductive SpawnOutcome :=
| SpawnThrows (error : string)
| SpawnChild (pid : option nat).

(** The outcome of the n-th evaluation of [spawn], and the clock read
    by [new Date().toISOString()] right after it. *)
Record OS := {
  os_spawn : nat → SpawnOutcome;
  os_date : nat → string
}.

(** ** The manager's methods *)

Section Manager.

Variable os : OS.
(** [Object.entries(CUSTOM_MCP_SERVERS)] *)
Variable registry : list (string * Config).

(** [this.emit(...)]; no listener is attached in the repository. *)
Definition emit (e : Event) : M unit :=
  modify (set_emitted (λ es, es ++ [e])).

(** [setTimeout(callback, ms)] *)
Definition setTimeout (t : Task) (ms : Z) : M unit :=
  modify (set_timers (λ ts, ts ++ [{| delay := ms; task := t |}])).

(** The [spawn('node', [config.path], ...)] call with the listeners
    that [startServer] attaches to its result; yields the reference to
    the new child process object.  The listeners on [stdout] and
    [stderr] only log.  A child without a process id has no process
    behind it. *)
Definition spawn (serverId : string) (cfg : Config) : M nat := λ w,
  let n := length (spawned w) in
  let w := set_spawned (λ l, l ++ [serverId]) w in
  match os_spawn os n with
  | SpawnThrows e => (w, Throw e)
  | SpawnChild p =>
      (set_heap (λ h, h ++ [{| cp_serverId := serverId; cp_config := cfg; cp_pid := p;
                              cp_live := bool_decide (is_Some p); killed := false;
                              cp_signals := [] |}]) w,
       Normal (length (heap w)))
  end.

Definition startServer (serverId : string) (cfg : Config) : M unit :=
  process ← spawn serverId cfg;
  p ← read (λ w, from_option cp_pid None (heap w !! process));
  now ← read (λ w, os_date os (length (spawned w) - 1));
  modify (set_processes <[serverId := process]>);;
  modify (set_servers <[serverId := {| config := cfg; pid := p;
                                       startTime := now; status := "running" |}]>).

Definition handleServerFailure (serverId : string) (cfg : Config) : M unit :=
  attempts ← read (λ w, default 0 (connectionAttempts w !! serverId));
  max ← read maxRetries;
  if decide (attempts < max) then
    modify (set_connectionAttempts <[serverId := attempts + 1]>);;
    setTimeout (RetryStart serverId cfg) (5000 * Z.of_nat (attempts + 1))
  else
    emit (serverMaxRetriesExceeded serverId).

(** [process.on('error', ...)] *)
Definition on_error (serverId : string) (cfg : Config) (error : string) : M unit :=
  emit (serverError serverId error);;
  handleServerFailure serverId cfg.

(** [code !== 0 && code !== null] *)
Definition abnormal (code : option Z) : bool :=
  match code with
  | Some c => bool_decide (c ≠ 0%Z)
  | None => false
  end.

(** [process.on('exit', ...)] *)
Definition on_exit (serverId : string) (cfg : Config)
    (code : option Z) (signal : option string) : M unit :=
  modify (set_processes (delete serverId));;
  modify (set_servers (delete serverId));;
  emit (serverExited serverId code signal);;
  if abnormal code then handleServerFailure serverId cfg else mret ().

(** [process.kill(sig)]: the signal reaches a process that is still
    there, and the object then records [killed]. *)
Definition kill (process : nat) (sig : Signal) : M unit :=
  modify (set_heap (λ h,
    match h !! process with
    | Some c =>
        if cp_live c then
          <[process := {| cp_serverId := cp_serverId c; cp_config := cp_config c;
                          cp_pid := cp_pid c; cp_live := cp_live c; killed := true;
                          cp_signals := cp_signals c ++ [sig] |}]> h
        else h
    | None => h
    end)).

Definition stopServer (serverId : string) : M unit :=
  process ← read (λ w, processes w !! serverId);
  match process with
  | Some p => kill p SIGTERM
  | None => mret ()
  end.

Fixpoint for_each {A} (l : list A) (body : A → M unit) : M unit :=
  match l with
  | [] => mret ()
  | x :: l => body x;; for_each l body
  end.

(** The body of the loop of [initialize]. *)
Definition initialize_entry (entry : string * Config) : M unit :=
  let '(serverId, cfg) := entry in
  if negb (enabled cfg) then mret ()
  else
    try_catch
      (startServer serverId cfg;;
       emit (serverStarted serverId cfg))
      (λ error, emit (serverFailed serverId error)).

Definition initialize : M unit :=
  for_each registry initialize_entry.

(** [shutdown] up to its [await]: every stored process is sent
    [SIGTERM], then the call suspends on a timer of 2000 ms. *)
Definition shutdown : M unit :=
  entries ← read (λ w, map_to_list (processes w));
  for_each entries (λ '(serverId, process), kill process SIGTERM);;
  setTimeout ShutdownResume 2000.

(** The rest of [shutdown], run when that timer fires. *)
Definition shutdown_resume : M unit :=
  entries ← read (λ w, map_to_list (processes w));
  for_each entries (λ '(serverId, process),
    k ← read (λ w, from_option killed false (heap w !! process));
    if negb k then kill process SIGKILL else mret ());;
  modify (set_processes (λ _, ∅));;
  modify (set_servers (λ _, ∅)).

(** ** Status queries *)

Inductive JsPid := pid_number (n : nat) | pid_undefined | pid_null.

Record StatusEntry := {
  entry_id : string;
  entry_name : string;
  entry_layer : Z;
  entry_enabled : bool;
  entry_status : string;
  entry_pid : JsPid;
  entry_startTime : option string;
  entry_tools : nat;
  entry_resources : nat
}.

Definition getServerStatus (w : World) : list StatusEntry :=
  (λ '(serverId, cfg),
    let serverData := servers w !! serverId in
    {| entry_id := serverId;
       entry_name := name cfg;
       entry_layer := layer cfg;
       entry_enabled := enabled cfg;
       entry_status := from_option status "stopped" serverData;
       entry_pid := from_option (λ d, from_option pid_number pid_undefined (pid d))
                                pid_null serverData;
       entry_startTime := startTime <$> serverData;
       entry_tools := length (tools cfg);
       entry_resources := length (resources cfg) |}) <$> registry.

Definition getServer (serverId : string) (w : World) : option ServerData :=
  servers w !! serverId.

(** ** The event loop *)

(** What can happen to a manager: a call of one of its methods, an
    event on one of the child processes it created, or a pending timer
    that fires. *)
Inductive Input :=
| CallInitialize
| CallStartServer (serverId : string) (cfg : Config)
| CallStopServer (serverId : string)
| CallShutdown
| ProcError (process : nat) (error : string)
| ProcExit (process : nat) (code : option Z) (signal : option string)
| TimerFire (k : nat).

Definition run_task (t : Task) : M unit :=
  match t with
  | RetryStart serverId cfg =>
      (* [this.startServer(serverId, config).catch(...)] *)
      try_catch (startServer serverId cfg) (λ _, mret ())
  | ShutdownResume => shutdown_resume
  end.

Definition reap (process : nat) : M unit :=
  modify (set_heap (λ h,
    match h !! process with
    | Some c =>
        <[process := {| cp_serverId := cp_serverId c; cp_config := cp_config c;
                        cp_pid := cp_pid c; cp_live := false; killed := killed c;
                        cp_signals := cp_signals c |}]> h
    | None => h
    end)).

Definition step (w : World) (i : Input) : World :=
  match i with
  | CallInitialize => exec initialize w
  | CallStartServer serverId cfg => exec (startServer serverId cfg) w
  | CallStopServer serverId => exec (stopServer serverId) w
  | CallShutdown => exec shutdown w
  | ProcError process error =>
      match heap w !! process with
      | Some c => exec (on_error (cp_serverId c) (cp_config c) error) w
      | None => w
      end
  | ProcExit process code signal =>
      match heap w !! process with
      | Some c =>
          if cp_live c then
            exec (reap process;; on_exit (cp_serverId c) (cp_config c) code signal) w
          else w
      | None => w
      end
  | TimerFire k =>
      match timers w !! k with
      | Some t => exec (run_task (task t)) (set_timers (delete k) w)
      | None => w
      end
  end.

Definition run (w : World) (inputs : list Input) : World :=
  foldl step w inputs.

End Manager.

(** ** Observations on a world *)

(** [this.connectionAttempts.get(serverId) || 0] *)
Definition attempts (serverId : string) (w : World) : nat :=
  default 0 (connectionAttempts w !! serverId).

Definition is_retry_of (serverId : string) (t : Timer) : bool :=
  match task t with
  | RetryStart s _ => bool_decide (s = serverId)
  | ShutdownResume => false
  end.

Definition count_retries (serverId : string) (ts : list Timer) : nat :=
  length (filter (λ t, is_retry_of serverId t = true) ts).

(** The relaunches of [serverId] that are armed and have not fired. *)
Definition pending_retries (serverId : string) (w : World) : nat :=
  count_retries serverId (timers w).

(** The calls of [shutdown] that are suspended in their [await]. *)
Definition pending_shutdowns (w : World) : nat :=
  length (filter (λ t, task t = ShutdownResume) (timers w)).

(** Inputs that start [serverId] from outside the manager. *)
Definition external_start (serverId : string) (i : Input) : bool :=
  match i with
  | CallInitialize => true
  | CallStartServer s _ => bool_decide (s = serverId)
  | _ => false
  end.

Definition count_id (serverId : string) (l : list string) : nat :=
  length (filter (λ s, s = serverId) l).

(** How often the [spawn] call was evaluated for [serverId]. *)
Definition spawn_count (serverId : string) (w : World) : nat :=
  count_id serverId (spawned w).

(** The attempts that the retry policy still grants [serverId]. *)
Definition attempts_left (serverId : string) (w : World) : nat :=
  maxRetries w - attempts serverId w.

(** What is left to happen for [serverId]: the evaluations of [spawn]
    made, the relaunches armed, and the attempts still granted. *)
Definition potential (serverId : string) (w : World) : nat :=
  spawn_count serverId w + pending_retries serverId w + attempts_left serverId w.

(** The state that [getServerStatus] reports for [serverId]. *)
Definition reported_status (registry : list (string * Config))
    (serverId : string) (w : World) : list (string * JsPid) :=
  (λ e, (entry_status e, entry_pid e)) <$>
    filter (λ e, entry_id e = serverId) (getServerStatus registry w).


(** The ids of the enabled definitions, in the order of the registry. *)
Definition enabled_ids (registry : list (string * Config)) : list string :=
  (filter (λ e, enabled e.2 = true) registry).*1.

(** The event that reports the launch of [serverId] when it is the
    [n]-th evaluation of [spawn]. *)
Definition launch_event (os : OS) (n : nat) (serverId : string) (cfg : Config) : Event :=
  match os_spawn os n with
  | SpawnThrows e => serverFailed serverId e
  | SpawnChild _ => serverStarted serverId cfg
  end.

(** One launch event for each enabled definition, in order. *)
Fixpoint launch_events (os : OS) (n : nat) (registry : list (string * Config)) : list Event :=
  match registry with
  | [] => []
  | (serverId, cfg) :: rest =>
      if enabled cfg then launch_event os n serverId cfg :: launch_events os (S n) rest
      else launch_events os n rest
  end.

(** Following the spec's words: [delay = baseDelay * attempt] with a
    base delay of 5 seconds, in milliseconds. *)
Definition baseDelay : Z := 5000.
Definition delayFor (attempt : nat) : Z := baseDelay * Z.of_nat attempt.

(** ** Sample surroundings *)

Module Sample.

(** A host that disables the hypnosis server and sets nothing else. *)
Definition host : Host :=
  {| process_env := {[ "ENABLE_HYPNOSIS_MCP" := "false" ]};
     dirname := "/app/src/services";
     join := String.concat "/" |}.

Definition registry : list (string * Config) := CUSTOM_MCP_SERVERS host.

Definition hypnosis : string := "bambisleep-hypnosis-mcp".
Definition analytics : string := "chat-analytics-mcp".

Definition cfg_of (serverId : string) : Config :=
  default {| name := ""; layer := 0; path := ""; enabled := false;
             tools := []; resources := []; prompts := None |}
          ((λ r, r.2.2) <$> list_find (λ e, e.1 = serverId) registry).

(** The [spawn] call of [startServer] as it is written: every
    evaluation throws the [ReferenceError]. *)
Definition os_throws : OS :=
  {| os_spawn := λ _, SpawnThrows "ReferenceError: Cannot access 'process' before initialization";
     os_date := λ _, "2025-11-03T00:00:00.000Z" |}.

(** [shutdown] awaited, then called again. *)
Definition shutdown_twice : list Input :=
  [ CallInitialize; CallShutdown; TimerFire 0; CallShutdown ].

End Sample.

(** ** The status endpoint ([src/server.js]) *)

(** The body that [GET /api/mcp/status] answers with. *)
Record McpStatus := {
  status_servers : list StatusEntry;
  status_total : nat;
  status_running : nat
}.

Definition mcp_status (registry : list (string * Config)) (w : World) : McpStatus :=
  let status := getServerStatus registry w in
  {| status_servers := status;
     status_total := length status;
     status_running := length (filter (λ s, entry_status s = "running") status) |}.

(** ** Further observations *)



(** A child that a [kill] can no longer reach, or has reached already. *)
Definition signalled_or_dead (H : list ChildProcess) (h : nat) : Prop :=
  ∀ c, H !! h = Some c → cp_live c = true → killed c = true.

(** What [kill] does to the heap. *)
Definition kill_heap (p : nat) (sig : Signal) (H : list ChildProcess) : list ChildProcess :=
  match H !! p with
  | Some c =>
      if cp_live c then
        <[p := {| cp_serverId := cp_serverId c; cp_config := cp_config c;
                  cp_pid := cp_pid c; cp_live := cp_live c; killed := true;
                  cp_signals := cp_signals c ++ [sig] |}]> H
      else H
  | None => H
  end.

(** The bodies of the two loops of [shutdown]. *)
Definition terminate_entry (entry : string * nat) : M unit :=
  let '(_, process) := entry in kill process SIGTERM.

Definition force_kill_entry (entry : string * nat) : M unit :=
  let '(_, process) := entry in
  k ← read (λ w, from_option killed false (heap w !! process));
  if negb k then kill process SIGKILL else mret ().

(** The heap [H'] comes from [H] by [SIGTERM]s alone: every object is
    still there, as alive as before, with some [SIGTERM]s added to the
    signals it has received. *)
Definition only_sigterm (H H' : list ChildProcess) : Prop :=
  length H' = length H ∧
  ∀ h c', H' !! h = Some c' →
    ∃ c n, H !! h = Some c ∧ cp_live c' = cp_live c ∧
           cp_signals c' = cp_signals c ++ replicate n SIGTERM.

(** How often the inputs start [serverId] from outside: once for each
    call of [startServer] with that id, and once for each time it is
    among the enabled definitions when [initialize] is called. *)
Definition outside_starts (registry : list (string * Config)) (serverId : string)
    (inputs : list Input) : nat :=
  sum_list ((λ i, match i with
                  | CallInitialize => count_id serverId (enabled_ids registry)
                  | CallStartServer s _ => if decide (s = serverId) then 1 else 0
                  | _ => 0
                  end) <$> inputs).

(** A manager on which no launch has ever yielded a child: no child
    process object exists, both maps are empty, no failure has been
    counted, no relaunch is pending, and every event emitted so far is
    a [serverFailed]. *)
Definition never_launched (w : World) : Prop :=
  heap w = [] ∧ servers w = ∅ ∧ processes w = ∅ ∧ connectionAttempts w = ∅ ∧
  (∀ id, pending_retries id w = 0) ∧
  ∀ ev, ev ∈ emitted w → ∃ id e, ev = serverFailed id e.

(** The environment variable that enables each server. *)
Definition enable_variables : list (string * string) :=
  [ ("ENABLE_HYPNOSIS_MCP", "bambisleep-hypnosis-mcp");
    ("ENABLE_PERSONALITY_MCP", "aigf-personality-mcp");
    ("ENABLE_TRIGGER_SYSTEM_MCP", "trigger-system-mcp");
    ("ENABLE_ANALYTICS_MCP", "chat-analytics-mcp") ].

Module Scenario.

(** A failure of the analytics server reported [n] times by a call of
    [handleServerFailure]; after each report the one timer that is
    pending fires, and the relaunch is evaluated by [os]. *)
Fixpoint reported (os : OS) (n : nat) : World :=
  match n with
  | 0 => constructor
  | S m =>
      step os Sample.registry
        (exec (handleServerFailure Sample.analytics (Sample.cfg_of Sample.analytics))
              (reported os m))
        (TimerFire 0)
  end.

(** A child process that runs and has not been sent a signal. *)
Definition child : ChildProcess :=
  {| cp_serverId := Sample.analytics; cp_config := Sample.cfg_of Sample.analytics;
     cp_pid := Some 4000; cp_live := true; killed := false; cp_signals := [] |}.

(** A new manager in whose maps the caller has stored [child] for the
    analytics server, as [startServer] stores the child it is given. *)
Definition holding_child : World :=
  {| servers := {[ Sample.analytics :=
                     {| config := Sample.cfg_of Sample.analytics; pid := Some 4000;
                        startTime := "2025-11-03T00:00:00.000Z"; status := "running" |} ]};
     processes := {[ Sample.analytics := 0 ]};
     connectionAttempts := ∅; maxRetries := 3;
     heap := [child]; timers := []; emitted := []; spawned := [] |}.

End Scenario.

(** * Properties *)

Ltac unfold_M :=
  unfold exec, mbind, M_bind, mret, M_ret, modify, read, emit, setTimeout, try_catch in *.

Lemma handleServerFailure_retry id cfg w :
  attempts id w < maxRetries w →
  handleServerFailure id cfg w =
    (set_timers (λ ts, ts ++ [{| delay := 5000 * Z.of_nat (attempts id w + 1);
                                 task := RetryStart id cfg |}])
       (set_connectionAttempts <[id := attempts id w + 1]> w), Normal ()).
Proof.
  intros Hlt. unfold handleServerFailure, attempts in *. unfold_M.
  destruct (decide _) as [_|Hn]; [reflexivity | contradiction].
Qed.

Lemma handleServerFailure_exhausted id cfg w :
  maxRetries w ≤ attempts id w →
  handleServerFailure id cfg w =
    (set_emitted (λ es, es ++ [serverMaxRetriesExceeded id]) w, Normal ()).
Proof.
  intros Hle. unfold handleServerFailure, attempts in *. unfold_M.
  destruct (decide _) as [Hlt|_]; [lia | reflexivity].
Qed.

Lemma on_exit_quiet id cfg code sig w :
  abnormal code = false →
  on_exit id cfg code sig w =
    (set_emitted (λ es, es ++ [serverExited id code sig])
       (set_servers (delete id) (set_processes (delete id) w)), Normal ()).
Proof. intros H. unfold on_exit. unfold_M. rewrite H. reflexivity. Qed.

Lemma on_exit_abnormal id cfg code sig w :
  abnormal code = true →
  on_exit id cfg code sig w =
    handleServerFailure id cfg
      (set_emitted (λ es, es ++ [serverExited id code sig])
         (set_servers (delete id) (set_processes (delete id) w))).
Proof. intros H. unfold on_exit. unfold_M. rewrite H. reflexivity. Qed.

Lemma startServer_throws os id cfg w e :
  os_spawn os (length (spawned w)) = SpawnThrows e →
  startServer os id cfg w = (set_spawned (λ l, l ++ [id]) w, Throw e).
Proof. intros H. unfold startServer, spawn. unfold_M. rewrite H. reflexivity. Qed.

Lemma startServer_child os id cfg w p :
  os_spawn os (length (spawned w)) = SpawnChild p →
  startServer os id cfg w =
    (set_servers <[id := {| config := cfg; pid := p;
                            startTime := os_date os (length (spawned w));
                            status := "running" |}]>
       (set_processes <[id := length (heap w)]>
          (set_heap (λ h, h ++ [{| cp_serverId := id; cp_config := cfg; cp_pid := p;
                                  cp_live := bool_decide (is_Some p); killed := false;
                                  cp_signals := [] |}])
             (set_spawned (λ l, l ++ [id]) w))), Normal ()).
Proof.
  intros H. unfold startServer, spawn. unfold_M. rewrite H. simpl.
  rewrite lookup_app_r, Nat.sub_diag by lia. simpl.
  rewrite length_app. simpl. replace (length (spawned w) + 1 - 1) with (length (spawned w)) by lia.
  reflexivity.
Qed.

Lemma for_each_heap_only {A} (l : list A) (body : A → M unit) :
  (∀ x w, ∃ f, body x w = (set_heap f w, Normal ())) →
  ∀ w, ∃ f, for_each l body w = (set_heap f w, Normal ()).
Proof.
  intros Hbody. induction l as [|x l IH]; intros w; simpl.
  - exists (λ h, h). destruct w; reflexivity.
  - unfold_M. destruct (Hbody x w) as [f ->].
    destruct (IH (set_heap f w)) as [g ->].
    exists (λ h, g (f h)). reflexivity.
Qed.

Lemma kill_heap_only p sig w : ∃ f, kill p sig w = (set_heap f w, Normal ()).
Proof. unfold kill, modify. eauto. Qed.

Lemma stopServer_heap_only id w : ∃ f, stopServer id w = (set_heap f w, Normal ()).
Proof.
  unfold stopServer. unfold_M. destruct (processes w !! id).
  - apply kill_heap_only.
  - exists (λ h, h). destruct w; reflexivity.
Qed.

Lemma shutdown_eq w :
  ∃ f, shutdown w =
    (set_timers (λ ts, ts ++ [{| delay := 2000; task := ShutdownResume |}])
       (set_heap f w), Normal ()).
Proof.
  unfold shutdown. unfold_M.
  destruct (for_each_heap_only (map_to_list (processes w))
              (λ '(_, process), kill process SIGTERM)) with (w := w) as [f Hf].
  { intros [s p] w0. apply kill_heap_only. }
  rewrite Hf. exists f. reflexivity.
Qed.

Lemma shutdown_resume_eq w :
  ∃ f, shutdown_resume w =
    (set_servers (λ _, ∅) (set_processes (λ _, ∅) (set_heap f w)), Normal ()).
Proof.
  unfold shutdown_resume.
  destruct (for_each_heap_only (map_to_list (processes w))
              (λ '(_, process),
                 k ← read (λ w, from_option killed false (heap w !! process));
                 if negb k then kill process SIGKILL else mret ())) with (w := w) as [f Hf].
  { intros [s p] w0. unfold_M. destruct (negb _).
    - apply kill_heap_only.
    - exists (λ h, h). destruct w0; reflexivity. }
  unfold_M. rewrite Hf. exists f. reflexivity.
Qed.

Lemma step_exit os reg w h c code sig :
  heap w !! h = Some c → cp_live c = true →
  step os reg w (ProcExit h code sig) =
    exec (on_exit (cp_serverId c) (cp_config c) code sig)
         (exec (reap h) w).
Proof.
  intros Hh Hl. simpl. rewrite Hh, Hl. unfold_M. reflexivity.
Qed.

Lemma step_timer os reg w k t :
  timers w !! k = Some t →
  step os reg w (TimerFire k) = exec (run_task os (task t)) (set_timers (delete k) w).
Proof. intros Hk. simpl. rewrite Hk. reflexivity. Qed.

Lemma step_error os reg w h c e :
  heap w !! h = Some c →
  step os reg w (ProcError h e) =
    exec (handleServerFailure (cp_serverId c) (cp_config c))
         (set_emitted (λ es, es ++ [serverError (cp_serverId c) e]) w).
Proof. intros Hh. simpl. rewrite Hh. reflexivity. Qed.

Lemma getServerStatus_absent reg id w e :
  servers w !! id = None →
  e ∈ getServerStatus reg w → entry_id e = id →
  entry_status e = "stopped" ∧ entry_pid e = pid_null ∧ entry_startTime e = None.
Proof.
  intros Hnone He Hid. unfold getServerStatus in He.
  apply list_elem_of_fmap in He as [[s cfg] [-> _]]. simpl in *. subst s.
  rewrite Hnone. auto.
Qed.

Lemma getServerStatus_registered reg id cfg w :
  (id, cfg) ∈ reg →
  ∃ e, e ∈ getServerStatus reg w ∧ entry_id e = id ∧ entry_enabled e = enabled cfg.
Proof.
  intros Hin. unfold getServerStatus. eexists. split.
  - apply list_elem_of_fmap. exists (id, cfg). split; [reflexivity | exact Hin].
  - simpl. repeat split.
Qed.

(** ** The retry policy *)

(** C2: the relaunch for attempt [k] is armed with a delay of
    [baseDelay * k] milliseconds, [baseDelay] being 5000 ms, that is,
    5 s, 10 s and 15 s for the attempts 1, 2 and 3; the delay never
    decreases from one attempt to the next. *)
Theorem retry_delay_linear (id : string) (cfg : Config) (w : World) :
  attempts id w < maxRetries w →
  let k := attempts id w + 1 in
  let w' := exec (handleServerFailure id cfg) w in
  attempts id w' = k ∧
  timers w' = timers w ++ [{| delay := delayFor k; task := RetryStart id cfg |}] ∧
  (delayFor k = 5000 * Z.of_nat k)%Z ∧
  (delayFor 1 = 5000 ∧ delayFor 2 = 10000 ∧ delayFor 3 = 15000)%Z ∧
  ∀ j : nat, (delayFor j ≤ delayFor (j + 1))%Z.
Proof.
  intros Hlt k w'. subst k w'. unfold exec.
  rewrite handleServerFailure_retry by exact Hlt. simpl.
  repeat split.
  - unfold attempts at 1. simpl. rewrite lookup_insert_eq. reflexivity.
  - intros j. unfold delayFor, baseDelay. lia.
Qed.

Lemma retry_delay_linear_witness :
  let cfg := Sample.cfg_of Sample.analytics in
  let w := Scenario.reported Sample.os_throws 2 in
  attempts Sample.analytics w = 2 ∧ maxRetries w = 3 ∧
  timers (exec (handleServerFailure Sample.analytics cfg) w) =
    [{| delay := 15000; task := RetryStart Sample.analytics cfg |}].
Proof.
  intros cfg w.
  assert (Hlt : attempts Sample.analytics w < maxRetries w) by (vm_compute; lia).
  pose proof (retry_delay_linear Sample.analytics cfg w Hlt) as (_ & Ht & _).
  split; [reflexivity|]. split; [reflexivity|].
  rewrite Ht. reflexivity.
Defined.

Lemma exec_reap h w c :
  heap w !! h = Some c →
  exec (reap h) w =
    set_heap (λ H, <[h := {| cp_serverId := cp_serverId c; cp_config := cp_config c;
                             cp_pid := cp_pid c; cp_live := false; killed := killed c;
                             cp_signals := cp_signals c |}]> H) w.
Proof. intros Hh. unfold reap. unfold_M. simpl. unfold set_heap. rewrite Hh. reflexivity. Qed.

(** ** Counting relaunches *)

Lemma count_retries_app id ts t :
  count_retries id (ts ++ [t]) =
  count_retries id ts + (if is_retry_of id t then 1 else 0).
Proof.
  unfold count_retries. rewrite filter_app, length_app. f_equal.
  rewrite filter_cons. case_decide as H.
  - rewrite H. reflexivity.
  - destruct (is_retry_of id t); [congruence | reflexivity].
Qed.

Lemma count_retries_delete id ts k t :
  ts !! k = Some t →
  count_retries id (delete k ts) + (if is_retry_of id t then 1 else 0) =
  count_retries id ts.
Proof.
  unfold count_retries. revert k. induction ts as [|a ts IH]; intros k Hk; [done|].
  destruct k as [|k]; simpl in Hk.
  - injection Hk as ->. simpl. rewrite filter_cons.
    destruct (decide _) as [->|Hn]; simpl; [lia|].
    destruct (is_retry_of id t); [congruence | lia].
  - simpl. rewrite !filter_cons. specialize (IH k Hk).
    destruct (decide _); simpl; lia.
Qed.

Lemma count_id_app id l s :
  count_id id (l ++ [s]) = count_id id l + (if decide (s = id) then 1 else 0).
Proof.
  unfold count_id. rewrite filter_app, length_app. f_equal.
  rewrite filter_cons. destruct (decide _); reflexivity.
Qed.

Lemma attempts_after_retry id id' n f w :
  attempts id (set_timers f (set_connectionAttempts <[id' := n]> w)) =
  if decide (id' = id) then n else attempts id w.
Proof.
  unfold attempts. simpl. destruct (decide (id' = id)) as [->|Hne].
  - rewrite lookup_insert_eq. reflexivity.
  - rewrite lookup_insert_ne by exact Hne. reflexivity.
Qed.

(** What [handleServerFailure] does to the quantities that decide
    about relaunches. *)
Lemma handleServerFailure_effect id id' cfg w :
  let w' := exec (handleServerFailure id' cfg) w in
  pending_retries id w' + attempts_left id w' = pending_retries id w + attempts_left id w ∧
  (id' ≠ id → pending_retries id w' = pending_retries id w) ∧
  (maxRetries w ≤ attempts id w → pending_retries id w' = pending_retries id w) ∧
  attempts id w ≤ attempts id w' ∧
  spawned w' = spawned w ∧ maxRetries w' = maxRetries w ∧ heap w' = heap w ∧
  servers w' = servers w ∧ processes w' = processes w.
Proof.
  intros w'. subst w'. unfold exec.
  destruct (decide (attempts id' w < maxRetries w)) as [Hlt|Hge].
  - rewrite handleServerFailure_retry by exact Hlt.
    unfold pending_retries, attempts_left. simpl.
    rewrite count_retries_app, attempts_after_retry.
    assert (Hr : ∀ d, is_retry_of id {| delay := d; task := RetryStart id' cfg |}
                      = bool_decide (id' = id)) by reflexivity.
    rewrite Hr. clear Hr.
    destruct (decide (id' = id)) as [->|Hne].
    + rewrite bool_decide_eq_true_2 by reflexivity.
      repeat split; try lia. intros; congruence.
    + rewrite bool_decide_eq_false_2 by exact Hne.
      repeat split; lia.
  - rewrite handleServerFailure_exhausted by lia.
    unfold pending_retries, attempts_left, attempts. simpl. repeat split; lia.
Qed.

Lemma on_error_effect id id' cfg e w :
  let w' := exec (on_error id' cfg e) w in
  pending_retries id w' + attempts_left id w' = pending_retries id w + attempts_left id w ∧
  (id' ≠ id → pending_retries id w' = pending_retries id w) ∧
  (maxRetries w ≤ attempts id w → pending_retries id w' = pending_retries id w) ∧
  attempts id w ≤ attempts id w' ∧
  spawned w' = spawned w ∧ maxRetries w' = maxRetries w ∧ heap w' = heap w ∧
  servers w' = servers w ∧ processes w' = processes w.
Proof.
  unfold on_error. unfold_M.
  exact (handleServerFailure_effect id id' cfg
           (set_emitted (λ es, es ++ [serverError id' e]) w)).
Qed.

Lemma on_exit_effect id id' cfg code sig w :
  let w' := exec (on_exit id' cfg code sig) w in
  pending_retries id w' + attempts_left id w' = pending_retries id w + attempts_left id w ∧
  (id' ≠ id → pending_retries id w' = pending_retries id w) ∧
  (maxRetries w ≤ attempts id w → pending_retries id w' = pending_retries id w) ∧
  attempts id w ≤ attempts id w' ∧
  spawned w' = spawned w ∧ maxRetries w' = maxRetries w ∧ heap w' = heap w ∧
  servers w' = delete id' (servers w) ∧ processes w' = delete id' (processes w).
Proof.
  intros w'. subst w'. unfold exec.
  destruct (abnormal code) eqn:Hc.
  - rewrite on_exit_abnormal by exact Hc.
    exact (handleServerFailure_effect id id' cfg
             (set_emitted (λ es, es ++ [serverExited id' code sig])
                (set_servers (delete id') (set_processes (delete id') w)))).
  - rewrite on_exit_quiet by exact Hc. simpl.
    unfold pending_retries, attempts_left, attempts. simpl. repeat split; lia.
Qed.

(** [startServer] evaluates [spawn] once and arms nothing. *)
Lemma startServer_effect os id id' cfg w :
  let w' := exec (startServer os id' cfg) w in
  spawned w' = spawned w ++ [id'] ∧
  timers w' = timers w ∧ connectionAttempts w' = connectionAttempts w ∧
  maxRetries w' = maxRetries w ∧ emitted w' = emitted w ∧
  (id' ≠ id → servers w' !! id = servers w !! id ∧ processes w' !! id = processes w !! id) ∧
  (is_Some (servers w !! id) → is_Some (servers w' !! id)) ∧
  (dom (processes w) = dom (servers w) → dom (processes w') = dom (servers w')) ∧
  (heap w' = heap w ∨
   ∃ c, heap w' = heap w ++ [c] ∧ cp_serverId c = id').
Proof.
  intros w'. subst w'. unfold exec.
  destruct (os_spawn os (length (spawned w))) as [e|p] eqn:Hos.
  - rewrite (startServer_throws _ _ _ _ e) by exact Hos. simpl.
    repeat split; auto.
  - rewrite (startServer_child _ _ _ _ p) by exact Hos. simpl.
    repeat split; auto.
    + rewrite lookup_insert_ne by assumption. reflexivity.
    + rewrite lookup_insert_ne by assumption. reflexivity.
    + intros Hs. destruct (decide (id' = id)) as [->|Hne].
      * rewrite lookup_insert_eq. eauto.
      * rewrite lookup_insert_ne by exact Hne. exact Hs.
    + intros Hd. rewrite !dom_insert_L, Hd. reflexivity.
    + right. eexists. split; reflexivity.
Qed.

Lemma potential_spawn id id' w1 w :
  spawned w1 = spawned w ++ [id'] →
  spawn_count id w1 = spawn_count id w + (if decide (id' = id) then 1 else 0).
Proof. intros H. unfold spawn_count. rewrite H. apply count_id_app. Qed.

(** Unless [id] is started from outside, a step of the event loop
    only turns a granted attempt into a pending relaunch, or a pending
    relaunch into an evaluation of [spawn]. *)
Ltac finish := repeat split; first [reflexivity | apply Nat.le_refl | lia].

(** [attempts] only reads [connectionAttempts]. *)
Ltac norm_attempts :=
  repeat first
    [ progress change (attempts ?id (set_timers ?f ?w)) with (attempts id w) in *
    | progress change (attempts ?id (set_heap ?f ?w)) with (attempts id w) in *
    | progress change (attempts ?id (set_servers ?f ?w)) with (attempts id w) in *
    | progress change (attempts ?id (set_processes ?f ?w)) with (attempts id w) in *
    | progress change (attempts ?id (set_emitted ?f ?w)) with (attempts id w) in *
    | progress change (attempts ?id (set_spawned ?f ?w)) with (attempts id w) in * ].

Lemma step_potential os reg id w i :
  external_start id i = false →
  potential id (step os reg w i) = potential id w ∧
  maxRetries (step os reg w i) = maxRetries w ∧
  spawn_count id w ≤ spawn_count id (step os reg w i) ∧
  attempts id w ≤ attempts id (step os reg w i).
Proof.
  intros Hext. unfold potential.
  destruct i as [| id' cfg | id' | | h e | h code sig | k]; simpl in Hext; try discriminate.
  - (* startServer of another worker *)
    apply bool_decide_eq_false_1 in Hext. simpl.
    destruct (startServer_effect os id id' cfg w) as (Hs & Ht & Hc & Hm & _).
    rewrite (potential_spawn id id' _ w Hs).
    destruct (decide (id' = id)); [contradiction|].
    assert (Ha : attempts id (exec (startServer os id' cfg) w) = attempts id w)
      by (unfold attempts; rewrite Hc; reflexivity).
    unfold pending_retries, attempts_left. rewrite Ht, Hm, Ha. 
    finish.
  - (* stopServer *)
    simpl. unfold exec. destruct (stopServer_heap_only id' w) as [f ->].
    unfold spawn_count, pending_retries, attempts_left. simpl. norm_attempts.
    finish.
  - (* shutdown *)
    simpl. unfold exec. destruct (shutdown_eq w) as [f ->].
    unfold spawn_count, pending_retries, attempts_left. simpl. norm_attempts.
    rewrite count_retries_app. simpl. finish.
  - (* error *)
    simpl. destruct (heap w !! h) as [c|]; [|repeat split; lia].
    destruct (on_error_effect id (cp_serverId c) (cp_config c) e w)
      as (Hp & _ & _ & Ha & Hs & Hm & _).
    unfold spawn_count. rewrite Hs, Hm. finish.
  - (* exit *)
    simpl. destruct (heap w !! h) as [c|] eqn:Hh; [|repeat split; lia].
    destruct (cp_live c); [|repeat split; lia].
    change (exec (reap h;; on_exit (cp_serverId c) (cp_config c) code sig) w)
      with (exec (on_exit (cp_serverId c) (cp_config c) code sig) (exec (reap h) w)).
    destruct (on_exit_effect id (cp_serverId c) (cp_config c) code sig (exec (reap h) w))
      as (Hp & _ & _ & Ha & Hs & Hm & _).
    rewrite (exec_reap _ _ c) in * by exact Hh.
    unfold spawn_count. rewrite Hs, Hm.
    unfold pending_retries, attempts_left in *. simpl in Hp. norm_attempts.
    simpl. finish.
  - (* a timer fires *)
    simpl. destruct (timers w !! k) as [t|] eqn:Hk; [|repeat split; lia].
    pose proof (count_retries_delete id _ _ _ Hk) as Hdel.
    destruct t as [d [id' cfg|]]; simpl.
    + unfold exec, try_catch.
      pose proof (startServer_effect os id id' cfg (set_timers (delete k) w))
        as (Hs & Ht & Hc & Hm & _).
      unfold exec in *.
      assert (Hw : ∀ x : World * Completion unit,
                 (match x with (w', Normal a) => (w', Normal a)
                             | (w', Throw _) => (w', Normal ()) end).1 = x.1)
        by (intros [? [|]]; reflexivity).
      unfold mret, M_ret. rewrite Hw.
      rewrite (potential_spawn id id' _ _ Hs).
      assert (Ha : attempts id ((startServer os id' cfg (set_timers (delete k) w)).1)
                   = attempts id w)
        by (unfold attempts; rewrite Hc; reflexivity).
      unfold pending_retries, attempts_left. rewrite Ht, Hm, Ha. simpl.
      unfold is_retry_of in Hdel. simpl in Hdel.
      unfold spawn_count. simpl.
      destruct (decide (id' = id)) as [->|Hne].
      * rewrite bool_decide_eq_true_2 in Hdel by reflexivity. finish.
      * rewrite bool_decide_eq_false_2 in Hdel by exact Hne. finish.
    + unfold exec. destruct (shutdown_resume_eq (set_timers (delete k) w)) as [f ->].
      unfold spawn_count, pending_retries, attempts_left. simpl. norm_attempts.
      unfold is_retry_of in Hdel. simpl in Hdel. finish.
Qed.


(** ** [initialize] *)

Lemma initialize_entry_enabled os id cfg w :
  enabled cfg = true →
  initialize_entry os (id, cfg) w =
    (set_emitted (λ es, es ++ [launch_event os (length (spawned w)) id cfg])
       (exec (startServer os id cfg) w), Normal ()).
Proof.
  intros He. unfold initialize_entry, launch_event, exec. rewrite He. simpl.
  destruct (os_spawn os (length (spawned w))) as [e|p] eqn:Hos.
  - unfold try_catch, mbind, M_bind.
    rewrite (startServer_throws _ _ _ _ e) by exact Hos. reflexivity.
  - unfold try_catch, mbind, M_bind.
    rewrite (startServer_child _ _ _ _ p) by exact Hos. reflexivity.
Qed.

Lemma initialize_entry_disabled os id cfg w :
  enabled cfg = false → initialize_entry os (id, cfg) w = (w, Normal ()).
Proof. intros He. unfold initialize_entry. rewrite He. reflexivity. Qed.

Lemma initialize_cons os entry reg w :
  initialize os (entry :: reg) w =
  initialize os reg (exec (initialize_entry os entry) w).
Proof.
  unfold initialize. simpl. unfold mbind, M_bind, exec.
  destruct entry as [id cfg]. destruct (enabled cfg) eqn:He.
  - rewrite initialize_entry_enabled by exact He. reflexivity.
  - rewrite initialize_entry_disabled by exact He. reflexivity.
Qed.

(** A property kept by every launch is kept by [initialize]. *)
Lemma initialize_preserves os (P : World → Prop) :
  (∀ id cfg w, P w → P (exec (startServer os id cfg) w)) →
  (∀ e w, P w → P (set_emitted (λ es, es ++ [e]) w)) →
  ∀ reg w, P w → P (exec (initialize os reg) w).
Proof.
  intros Hstart Hemit reg. induction reg as [|[id cfg] reg IH]; intros w Hw.
  - exact Hw.
  - unfold exec. rewrite initialize_cons. apply IH.
    destruct (enabled cfg) eqn:He.
    + unfold exec. rewrite initialize_entry_enabled by exact He. simpl.
      apply Hemit, Hstart, Hw.
    + unfold exec. rewrite initialize_entry_disabled by exact He. exact Hw.
Qed.

(** [initialize] completes normally, having evaluated [spawn] once for
    each enabled definition and emitted one event for each. *)
Lemma initialize_eq os reg : ∀ w,
  ∃ w', initialize os reg w = (w', Normal ()) ∧
        spawned w' = spawned w ++ enabled_ids reg ∧
        emitted w' = emitted w ++ launch_events os (length (spawned w)) reg ∧
        timers w' = timers w ∧ connectionAttempts w' = connectionAttempts w ∧
        maxRetries w' = maxRetries w.
Proof.
  induction reg as [|[id cfg] reg IH]; intros w.
  - exists w. unfold enabled_ids. simpl. rewrite !app_nil_r. repeat split.
  - rewrite initialize_cons. destruct (enabled cfg) eqn:He.
    + unfold exec at 1. rewrite initialize_entry_enabled by exact He. simpl.
      destruct (startServer_effect os id id cfg w) as (Hs & Ht & Hc & Hm & Hem & _).
      destruct (IH (set_emitted (λ es, es ++ [launch_event os (length (spawned w)) id cfg])
                      (exec (startServer os id cfg) w)))
        as (w' & -> & Hs' & He' & Ht' & Hc' & Hm').
      exists w'. simpl in *. split; [reflexivity|].
      rewrite Hs', He', Ht', Hc', Hm', Hs, Ht, Hc, Hm, Hem.
      unfold enabled_ids. rewrite filter_cons. simpl.
      destruct (decide _) as [_|Hn]; [|congruence]. simpl.
      rewrite He. rewrite length_app. simpl.
      replace (length (spawned w) + 1) with (S (length (spawned w))) by lia.
      rewrite <- !app_assoc. repeat split.
    + unfold exec at 1. rewrite initialize_entry_disabled by exact He. simpl.
      destruct (IH w) as (w' & -> & Hs' & He' & Ht' & Hc' & Hm').
      exists w'. split; [reflexivity|].
      rewrite Hs', He', Ht', Hc', Hm'.
      unfold enabled_ids. rewrite filter_cons. simpl.
      destruct (decide _) as [Hy|_]; [congruence|]. rewrite He. repeat split.
Qed.

(** ** The two maps *)

Lemma exec_catch_all (m : M unit) w :
  exec (try_catch m (λ _, mret ())) w = exec m w.
Proof.
  unfold exec, try_catch. destruct (m w) as [w' [[]|e]]; reflexivity.
Qed.

Lemma step_sync os reg w i :
  dom (processes w) = dom (servers w) →
  dom (processes (step os reg w i)) = dom (servers (step os reg w i)).
Proof.
  intros Hd.
  destruct i as [| id' cfg | id' | | h e | h code sig | k]; simpl.
  - apply (initialize_preserves os (λ w, dom (processes w) = dom (servers w))); [| |exact Hd].
    + intros id cfg w0 H0. destruct (startServer_effect os id id cfg w0) as (_&_&_&_&_&_&_&H&_).
      apply H, H0.
    + intros e w0 H0. exact H0.
  - destruct (startServer_effect os id' id' cfg w) as (_&_&_&_&_&_&_&H&_). apply H, Hd.
  - unfold exec. destruct (stopServer_heap_only id' w) as [f ->]. exact Hd.
  - unfold exec. destruct (shutdown_eq w) as [f ->]. exact Hd.
  - destruct (heap w !! h) as [c|]; [|exact Hd].
    destruct (on_error_effect (cp_serverId c) (cp_serverId c) (cp_config c) e w)
      as (_&_&_&_&_&_&_&Hs&Hp).
    rewrite Hs, Hp. exact Hd.
  - destruct (heap w !! h) as [c|] eqn:Hh; [|exact Hd].
    destruct (cp_live c); [|exact Hd].
    change (exec (reap h;; on_exit (cp_serverId c) (cp_config c) code sig) w)
      with (exec (on_exit (cp_serverId c) (cp_config c) code sig) (exec (reap h) w)).
    destruct (on_exit_effect (cp_serverId c) (cp_serverId c) (cp_config c) code sig
                (exec (reap h) w)) as (_&_&_&_&_&_&_&Hs&Hp).
    rewrite Hs, Hp, (exec_reap _ _ c) by exact Hh. simpl.
    rewrite !dom_delete_L, Hd. reflexivity.
  - destruct (timers w !! k) as [[d [id' cfg|]]|]; [| |exact Hd]; simpl.
    + rewrite exec_catch_all.
      destruct (startServer_effect os id' id' cfg (set_timers (delete k) w))
        as (_&_&_&_&_&_&_&H&_).
      apply H, Hd.
    + unfold exec. destruct (shutdown_resume_eq (set_timers (delete k) w)) as [f ->].
      reflexivity.
Qed.

(** C10: whatever happens to a new manager (calls of its methods,
    events of its child processes, timers that fire), [processes] and
    [servers] hold entries for the same worker ids. *)
Theorem processes_and_servers_in_step (os : OS) (reg : list (string * Config))
    (inputs : list Input) :
  let w := run os reg constructor inputs in
  dom (processes w) = dom (servers w) ∧
  ∀ id : string, is_Some (processes w !! id) ↔ is_Some (servers w !! id).
Proof.
  intros w.
  assert (Hd : dom (processes w) = dom (servers w)).
  { subst w. generalize constructor, (eq_refl : dom (processes constructor) = dom (servers constructor)).
    induction inputs as [|i ins IH]; intros w0 H0; simpl.
    - exact H0.
    - apply IH, step_sync, H0. }
  split; [exact Hd|].
  intros id. rewrite <- !elem_of_dom, Hd. reflexivity.
Qed.

(** ** Disabled definitions *)

Lemma enabled_ids_cons id cfg reg :
  enabled_ids ((id, cfg) :: reg) =
  if enabled cfg then id :: enabled_ids reg else enabled_ids reg.
Proof.
  unfold enabled_ids. rewrite filter_cons. simpl.
  destruct (enabled cfg); destruct (decide _); try congruence; reflexivity.
Qed.

Lemma count_id_notin id l : id ∉ l → count_id id l = 0.
Proof.
  unfold count_id. induction l as [|a l IH]; intros Hn; [reflexivity|].
  rewrite filter_cons. apply not_elem_of_cons in Hn as [Hne Hn].
  destruct (decide (a = id)); [congruence|]. apply IH, Hn.
Qed.

Lemma count_id_app_list id l1 l2 :
  count_id id (l1 ++ l2) = count_id id l1 + count_id id l2.
Proof. unfold count_id. rewrite filter_app, length_app. reflexivity. Qed.

Lemma initialize_untouched os id reg : ∀ w,
  id ∉ enabled_ids reg →
  servers (exec (initialize os reg) w) !! id = servers w !! id ∧
  processes (exec (initialize os reg) w) !! id = processes w !! id.
Proof.
  induction reg as [|[id' cfg] reg IH]; intros w Hn.
  - split; reflexivity.
  - unfold exec. rewrite initialize_cons. rewrite enabled_ids_cons in Hn.
    destruct (enabled cfg) eqn:He.
    + apply not_elem_of_cons in Hn as [Hne Hn].
      destruct (IH (exec (initialize_entry os (id', cfg)) w) Hn) as [Hs Hp].
      unfold exec in *. rewrite Hs, Hp.
      rewrite initialize_entry_enabled by exact He. simpl.
      destruct (startServer_effect os id id' cfg w) as (_&_&_&_&_&H&_).
      apply H. congruence.
    + destruct (IH (exec (initialize_entry os (id', cfg)) w) Hn) as [Hs Hp].
      unfold exec in *. rewrite Hs, Hp.
      rewrite initialize_entry_disabled by exact He. split; reflexivity.
Qed.

Lemma registry_functional (reg : list (string * Config)) id cfg1 cfg2 :
  NoDup reg.*1 → (id, cfg1) ∈ reg → (id, cfg2) ∈ reg → cfg1 = cfg2.
Proof.
  induction reg as [|[a b] reg IH]; intros Hnd H1 H2.
  - inversion H1.
  - simpl in Hnd. apply NoDup_cons in Hnd as [Hnot Hnd].
    apply elem_of_cons in H1 as [H1|H1]; apply elem_of_cons in H2 as [H2|H2].
    + congruence.
    + exfalso. apply Hnot. injection H1 as -> ->.
      apply list_elem_of_fmap. exists (a, cfg2). auto.
    + exfalso. apply Hnot. injection H2 as -> ->.
      apply list_elem_of_fmap. exists (a, cfg1). auto.
    + apply IH; assumption.
Qed.

Lemma disabled_not_in_enabled_ids reg id cfg :
  NoDup reg.*1 → (id, cfg) ∈ reg → enabled cfg = false → id ∉ enabled_ids reg.
Proof.
  intros Hnd Hin He Hmem. unfold enabled_ids in Hmem.
  apply list_elem_of_fmap in Hmem as [[id' cfg'] [Heq Hf]]. simpl in Heq. subst id'.
  apply list_elem_of_filter in Hf as [Hen Hin']. simpl in Hen.
  assert (cfg = cfg') by (eapply registry_functional; eauto). subst cfg'. congruence.
Qed.

(** C5: [initialize] never evaluates [spawn] for a definition that is
    not enabled and stores nothing for it; [getServerStatus] has an
    entry for it, and as long as nothing was stored for it the entry
    says stopped, without a process id. *)
Theorem disabled_never_launched (os : OS) (reg : list (string * Config))
    (id : string) (cfg : Config) (w : World) :
  NoDup reg.*1 → (id, cfg) ∈ reg → enabled cfg = false →
  servers w !! id = None →
  let w' := exec (initialize os reg) w in
  spawn_count id w' = spawn_count id w ∧
  (id ∉ drop (length (spawned w)) (spawned w')) ∧
  servers w' !! id = None ∧
  processes w' !! id = processes w !! id ∧
  (∃ e, e ∈ getServerStatus reg w' ∧ entry_id e = id ∧ entry_enabled e = false) ∧
  (∀ e, e ∈ getServerStatus reg w' → entry_id e = id →
        entry_status e = "stopped" ∧ entry_pid e = pid_null).
Proof.
  intros Hnd Hin He Hnone w'.
  pose proof (disabled_not_in_enabled_ids reg id cfg Hnd Hin He) as Hnot.
  destruct (initialize_untouched os id reg w Hnot) as [Hs Hp].
  destruct (initialize_eq os reg w) as (w1 & Hw1 & Hsp & _).
  assert (Hw' : w' = w1) by (subst w'; unfold exec; rewrite Hw1; reflexivity).
  fold w' in Hs, Hp. rewrite Hnone in Hs.
  split; [|split; [|split; [|split; [|split]]]].
  - rewrite Hw'. unfold spawn_count. rewrite Hsp, count_id_app_list.
    rewrite (count_id_notin id (enabled_ids reg)) by exact Hnot. lia.
  - rewrite Hw', Hsp, drop_app_length. exact Hnot.
  - exact Hs.
  - exact Hp.
  - destruct (getServerStatus_registered reg id cfg w' Hin) as (e & He1 & He2 & He3).
    exists e. rewrite <- He. auto.
  - intros e He1 He2.
    destruct (getServerStatus_absent _ _ _ _ Hs He1 He2) as (? & ? & _). auto.
Qed.

Lemma disabled_never_launched_witness :
  let w' := exec (initialize Sample.os_throws Sample.registry) constructor in
  enabled (Sample.cfg_of Sample.hypnosis) = false ∧
  spawn_count Sample.hypnosis w' = 0 ∧
  reported_status Sample.registry Sample.hypnosis w' = [("stopped", pid_null)].
Proof.
  intros w'.
  assert (Hnd : NoDup Sample.registry.*1)
    by (apply (bool_decide_unpack _); vm_compute; exact I).
  assert (Hin : (Sample.hypnosis, Sample.cfg_of Sample.hypnosis) ∈ Sample.registry)
    by (apply (bool_decide_unpack _); vm_compute; exact I).
  destruct (disabled_never_launched Sample.os_throws Sample.registry Sample.hypnosis
              (Sample.cfg_of Sample.hypnosis) constructor Hnd Hin eq_refl eq_refl)
    as (Hs & _).
  split; [reflexivity|]. split; [exact Hs | reflexivity].
Defined.

(** ** Launch failures during [initialize] *)

Lemma exec_initialize_cons os entry reg w :
  exec (initialize os (entry :: reg)) w =
  exec (initialize os reg) (exec (initialize_entry os entry) w).
Proof. unfold exec at 1 2. rewrite initialize_cons. reflexivity. Qed.

Lemma exec_initialize_entry os id cfg w :
  exec (initialize_entry os (id, cfg)) w =
  if enabled cfg then
    set_emitted (λ es, es ++ [launch_event os (length (spawned w)) id cfg])
      (exec (startServer os id cfg) w)
  else w.
Proof.
  unfold exec at 1. destruct (enabled cfg) eqn:He.
  - rewrite initialize_entry_enabled by exact He. reflexivity.
  - rewrite initialize_entry_disabled by exact He. reflexivity.
Qed.

Lemma initialize_failed_untouched os id reg : ∀ w,
  (∀ cfg, serverStarted id cfg ∉ launch_events os (length (spawned w)) reg) →
  servers (exec (initialize os reg) w) !! id = servers w !! id ∧
  processes (exec (initialize os reg) w) !! id = processes w !! id.
Proof.
  induction reg as [|[id' cfg'] reg IH]; intros w Hn.
  - split; reflexivity.
  - rewrite exec_initialize_cons, exec_initialize_entry. simpl in Hn.
    destruct (enabled cfg') eqn:He; [|apply IH, Hn].
    set (w1 := set_emitted _ _).
    assert (Hlen : length (spawned w1) = S (length (spawned w))).
    { subst w1. simpl.
      destruct (startServer_effect os id id' cfg' w) as (Hs & _).
      rewrite Hs, length_app. simpl. lia. }
    destruct (IH w1) as [Hs Hp].
    { intros cfg Hin. apply (Hn cfg). rewrite Hlen in Hin.
      apply list_elem_of_further, Hin. }
    rewrite Hs, Hp. subst w1. simpl.
    unfold launch_event in Hn.
    destruct (os_spawn os (length (spawned w))) as [e|p] eqn:Hos.
    + unfold exec. rewrite (startServer_throws _ _ _ _ e) by exact Hos.
      split; reflexivity.
    + assert (Hne : id' ≠ id).
      { intros ->. apply (Hn cfg'). apply list_elem_of_here. }
      destruct (startServer_effect os id id' cfg' w) as (_&_&_&_&_&H&_).
      apply H, Hne.
Qed.

(** C6, as the code has it: [initialize] completes normally whatever
    the launches do; [spawn] is evaluated once for each enabled
    definition, in the order of the registry, also after a launch that
    failed; each launch is reported by one event, [serverFailed] with
    the worker's id and the error when it threw and [serverStarted]
    otherwise.  The failure is recorded in no handle: for a worker
    without a launch that succeeded both maps keep what they held, and
    when the manager held no record of it, [getServerStatus] reports it
    as stopped, without a process id. *)
Theorem initialize_never_throws (os : OS) (reg : list (string * Config)) (w : World) :
  ∃ w', initialize os reg w = (w', Normal ()) ∧
        spawned w' = spawned w ++ enabled_ids reg ∧
        emitted w' = emitted w ++ launch_events os (length (spawned w)) reg ∧
        ∀ id, (∀ cfg, serverStarted id cfg ∉ launch_events os (length (spawned w)) reg) →
              servers w' !! id = servers w !! id ∧
              processes w' !! id = processes w !! id ∧
              (servers w !! id = None →
               ∀ e, e ∈ getServerStatus reg w' → entry_id e = id →
                    entry_status e = "stopped" ∧ entry_pid e = pid_null).
Proof.
  destruct (initialize_eq os reg w) as (w' & Hw' & Hs & He & _).
  exists w'. split; [exact Hw'|]. split; [exact Hs|]. split; [exact He|].
  intros id Hn.
  assert (Hex : exec (initialize os reg) w = w') by (unfold exec; rewrite Hw'; reflexivity).
  destruct (initialize_failed_untouched os id reg w Hn) as [Hsv Hpr].
  rewrite Hex in Hsv, Hpr.
  split; [exact Hsv|]. split; [exact Hpr|].
  intros Hnone e Hin Hid. rewrite Hnone in Hsv.
  destruct (getServerStatus_absent _ _ _ _ Hsv Hin Hid) as (? & ? & _). auto.
Qed.

Lemma initialize_never_throws_witness :
  let w' := exec (initialize Sample.os_throws Sample.registry) constructor in
  let err := "ReferenceError: Cannot access 'process' before initialization" in
  spawned w' = ["aigf-personality-mcp"; "trigger-system-mcp"; "chat-analytics-mcp"] ∧
  emitted w' = [serverFailed "aigf-personality-mcp" err;
                serverFailed "trigger-system-mcp" err;
                serverFailed "chat-analytics-mcp" err] ∧
  servers w' !! "aigf-personality-mcp" = None ∧
  ∀ e, e ∈ getServerStatus Sample.registry w' → entry_id e = "aigf-personality-mcp" →
       entry_status e = "stopped" ∧ entry_pid e = pid_null.
Proof.
  intros w' err.
  destruct (initialize_never_throws Sample.os_throws Sample.registry constructor)
    as (w1 & Hw1 & Hs & He & Hun).
  assert (Hw' : w' = w1) by (subst w'; unfold exec; rewrite Hw1; reflexivity).
  rewrite Hw', Hs, He. split; [reflexivity|]. split; [reflexivity|].
  destruct (Hun "aigf-personality-mcp") as (Hsv & _ & Hst).
  - intros cfg Hin. vm_compute in Hin.
    repeat (apply elem_of_cons in Hin as [Hin|Hin]; [discriminate Hin|]).
    inversion Hin.
  - split; [rewrite Hsv; reflexivity|]. apply Hst. reflexivity.
Defined.

(** C6 as the claim has it fails: every launch of [initialize] throws;
    the three failures are emitted as events, and the manager holds no
    record of them: its maps are empty and [getServerStatus] answers
    as it does on a new manager. *)
Lemma launch_failure_counterexample :
  let w := exec (initialize Sample.os_throws Sample.registry) constructor in
  let err := "ReferenceError: Cannot access 'process' before initialization" in
  emitted w = [serverFailed "aigf-personality-mcp" err;
               serverFailed "trigger-system-mcp" err;
               serverFailed "chat-analytics-mcp" err] ∧
  servers w = ∅ ∧ processes w = ∅ ∧ connectionAttempts w = ∅ ∧ heap w = [] ∧
  getServerStatus Sample.registry w = getServerStatus Sample.registry constructor ∧
  ¬ (∃ id, is_Some (getServer id w)).
Proof.
  intros w err.
  assert (Hs : servers w = ∅) by reflexivity.
  repeat split; try reflexivity.
  intros [id [x Hx]]. unfold getServer in Hx. rewrite Hs, lookup_empty in Hx.
  discriminate Hx.
Qed.

(** ** [shutdown] *)

Lemma shutdown_idle w :
  processes w = ∅ →
  shutdown w =
    (set_timers (λ ts, ts ++ [{| delay := 2000; task := ShutdownResume |}]) w, Normal ()).
Proof.
  intros Hp. unfold shutdown. unfold_M. rewrite Hp, map_to_list_empty. reflexivity.
Qed.

Lemma shutdown_resume_idle w :
  processes w = ∅ →
  shutdown_resume w = (set_servers (λ _, ∅) (set_processes (λ _, ∅) w), Normal ()).
Proof.
  intros Hp. unfold shutdown_resume. unfold_M. rewrite Hp, map_to_list_empty. reflexivity.
Qed.

Lemma delete_last_timer (ts : list Timer) t : delete (length ts) (ts ++ [t]) = ts.
Proof. induction ts as [|a ts IH]; simpl; [reflexivity | f_equal; exact IH]. Qed.

Lemma world_restore w t :
  servers w = ∅ → processes w = ∅ →
  set_servers (λ _, ∅)
    (set_processes (λ _, ∅)
       (set_timers (delete (length (timers w)))
          (set_timers (λ ts, ts ++ [t]) w))) = w.
Proof.
  destruct w; simpl. intros -> ->. unfold set_servers, set_processes, set_timers. simpl.
  rewrite delete_last_timer. reflexivity.
Qed.

(** C7, as the code has it: when a call of [shutdown] has completed, a
    second call throws nothing, sends no signal, emits nothing and
    spawns nothing, and once it has completed the world is what it was
    after the first call; but it does not return at once: it arms the
    grace timer of 2000 ms again and completes when that timer fires. *)
Theorem second_shutdown_changes_nothing (os : OS) (reg : list (string * Config))
    (w : World) (k : nat) (d : Z) :
  timers w !! k = Some {| delay := d; task := ShutdownResume |} →
  let w1 := step os reg w (TimerFire k) in
  let w2 := step os reg w1 CallShutdown in
  (∃ w', shutdown w1 = (w', Normal ())) ∧
  heap w2 = heap w1 ∧ emitted w2 = emitted w1 ∧ spawned w2 = spawned w1 ∧
  servers w2 = ∅ ∧ processes w2 = ∅ ∧
  connectionAttempts w2 = connectionAttempts w1 ∧
  timers w2 = timers w1 ++ [{| delay := 2000; task := ShutdownResume |}] ∧
  pending_shutdowns w2 = pending_shutdowns w1 + 1 ∧
  step os reg w2 (TimerFire (length (timers w1))) = w1.
Proof.
  intros Hk w1 w2.
  assert (Hw1 : ∃ f, w1 = set_servers (λ _, ∅) (set_processes (λ _, ∅)
                              (set_heap f (set_timers (delete k) w)))).
  { subst w1. simpl. rewrite Hk. simpl. unfold exec.
    destruct (shutdown_resume_eq (set_timers (delete k) w)) as [f ->]. eauto. }
  destruct Hw1 as [f Hw1].
  assert (Hp1 : processes w1 = ∅) by (rewrite Hw1; reflexivity).
  assert (Hs1 : servers w1 = ∅) by (rewrite Hw1; reflexivity).
  assert (Hw2 : w2 = set_timers (λ ts, ts ++ [{| delay := 2000; task := ShutdownResume |}]) w1).
  { subst w2. simpl. unfold exec. rewrite shutdown_idle by exact Hp1. reflexivity. }
  split; [rewrite shutdown_idle by exact Hp1; eauto|].
  rewrite Hw2. simpl. rewrite Hs1, Hp1.
  repeat split.
  - unfold pending_shutdowns.
    change (timers (set_timers ?f w1)) with (f (timers w1)). cbv beta.
    rewrite filter_app, length_app. f_equal.
  - rewrite lookup_app_r, Nat.sub_diag by lia. simpl. unfold exec.
    rewrite shutdown_resume_idle by exact Hp1. simpl.
    apply world_restore; assumption.
Qed.

Lemma second_shutdown_changes_nothing_witness :
  let w := run Sample.os_throws Sample.registry constructor (take 2 Sample.shutdown_twice) in
  let w1 := step Sample.os_throws Sample.registry w (TimerFire 0) in
  let w2 := step Sample.os_throws Sample.registry w1 CallShutdown in
  timers w = [{| delay := 2000; task := ShutdownResume |}] ∧
  heap w2 = heap w1 ∧ emitted w2 = emitted w1 ∧
  timers w2 = [{| delay := 2000; task := ShutdownResume |}] ∧
  step Sample.os_throws Sample.registry w2 (TimerFire 0) = w1.
Proof.
  intros w w1 w2.
  assert (Hk : timers w !! 0 = Some {| delay := 2000; task := ShutdownResume |})
    by reflexivity.
  destruct (second_shutdown_changes_nothing Sample.os_throws Sample.registry w 0 2000 Hk)
    as (_ & Hh & He & _ & _ & _ & _ & _ & _ & Hback).
  fold w1 in Hh, He, Hback. fold w2 in Hh, He, Hback.
  split; [reflexivity|]. split; [exact Hh|]. split; [exact He|]. split; [reflexivity|].
  exact Hback.
Defined.

(** C7 as the claim has it fails: the second of two calls of
    [shutdown] in a row has not returned when control goes back to the
    event loop; it is suspended on a timer of 2000 ms. *)
Lemma second_shutdown_counterexample :
  let w1 := run Sample.os_throws Sample.registry constructor (take 3 Sample.shutdown_twice) in
  let w2 := run Sample.os_throws Sample.registry constructor Sample.shutdown_twice in
  Sample.shutdown_twice = [CallInitialize; CallShutdown; TimerFire 0; CallShutdown] ∧
  pending_shutdowns w1 = 0 ∧ processes w1 = ∅ ∧
  pending_shutdowns w2 = 1 ∧
  timers w2 = [{| delay := 2000; task := ShutdownResume |}] ∧
  w2 ≠ w1.
Proof.
  intros w1 w2. repeat split; try reflexivity.
  intros Heq. apply (f_equal timers) in Heq. vm_compute in Heq. discriminate Heq.
Qed.


(** * Further properties of the manager *)

Lemma getServerStatus_ext reg w w' :
  servers w' = servers w → getServerStatus reg w' = getServerStatus reg w.
Proof. intros H. unfold getServerStatus. rewrite H. reflexivity. Qed.

(** ** [error] events *)

(** An [error] event of a child process changes neither map nor the
    heap, so [getServerStatus] answers as before: a worker whose child
    reported an error stays listed as running, also while its relaunch
    is pending. *)
Theorem error_event_keeps_status (os : OS) (reg : list (string * Config))
    (w : World) (h : nat) (e : string) :
  let w' := step os reg w (ProcError h e) in
  servers w' = servers w ∧ processes w' = processes w ∧ heap w' = heap w ∧
  spawned w' = spawned w ∧
  getServerStatus reg w' = getServerStatus reg w ∧
  ∀ id, getServer id w' = getServer id w.
Proof.
  intros w'. subst w'. simpl.
  destruct (heap w !! h) as [c|]; [|repeat split].
  destruct (on_error_effect (cp_serverId c) (cp_serverId c) (cp_config c) e w)
    as (_ & _ & _ & _ & Hsp & _ & Hh & Hs & Hp).
  split; [exact Hs|]. split; [exact Hp|]. split; [exact Hh|]. split; [exact Hsp|].
  split; [apply getServerStatus_ext, Hs|].
  intros id. unfold getServer. rewrite Hs. reflexivity.
Qed.

(** ** [stopServer] *)

Lemma set_heap_same w : set_heap (λ H, H) w = w.
Proof. destruct w; reflexivity. Qed.

Lemma stopServer_live os reg w id h c :
  processes w !! id = Some h → heap w !! h = Some c → cp_live c = true →
  step os reg w (CallStopServer id) =
    set_heap (λ H, <[h := {| cp_serverId := cp_serverId c; cp_config := cp_config c;
                             cp_pid := cp_pid c; cp_live := true; killed := true;
                             cp_signals := cp_signals c ++ [SIGTERM] |}]> H) w.
Proof.
  intros Hp Hh Hl. simpl. unfold stopServer, kill. unfold_M. rewrite Hp. simpl.
  unfold set_heap. rewrite Hh, Hl. reflexivity.
Qed.

(** [stopServer] does nothing for an id without a stored process, and
    nothing when the stored child is gone already; otherwise it sends
    one [SIGTERM] to the stored child, marks it as killed, and leaves
    everything else as it is: the entries stay until the child exits. *)
Theorem stopServer_signals_stored_child (os : OS) (reg : list (string * Config))
    (w : World) (id : string) :
  (processes w !! id = None → step os reg w (CallStopServer id) = w) ∧
  (∀ h c, processes w !! id = Some h → heap w !! h = Some c → cp_live c = false →
          step os reg w (CallStopServer id) = w) ∧
  (∀ h c, processes w !! id = Some h → heap w !! h = Some c → cp_live c = true →
          step os reg w (CallStopServer id) =
            set_heap (λ H, <[h := {| cp_serverId := cp_serverId c; cp_config := cp_config c;
                                     cp_pid := cp_pid c; cp_live := true; killed := true;
                                     cp_signals := cp_signals c ++ [SIGTERM] |}]> H) w).
Proof.
  split; [|split].
  - intros Hp. simpl. unfold stopServer. unfold_M. rewrite Hp. reflexivity.
  - intros h c Hp Hh Hl. simpl. unfold stopServer, kill. unfold_M. rewrite Hp. simpl.
    rewrite <- (set_heap_same w) at 2. unfold set_heap. rewrite Hh, Hl. reflexivity.
  - intros h c Hp Hh Hl. apply stopServer_live; assumption.
Qed.

Lemma stopServer_signals_stored_child_witness :
  let w := Scenario.holding_child in
  let w' := step Sample.os_throws Sample.registry w (CallStopServer Sample.analytics) in
  step Sample.os_throws Sample.registry w (CallStopServer Sample.hypnosis) = w ∧
  ((λ c, (killed c, cp_signals c)) <$> heap w') = [(true, [SIGTERM])] ∧
  (status <$> getServer Sample.analytics w') = Some "running".
Proof.
  intros w w'.
  destruct (stopServer_signals_stored_child Sample.os_throws Sample.registry w
              Sample.hypnosis) as (Hnone & _).
  destruct (stopServer_signals_stored_child Sample.os_throws Sample.registry w
              Sample.analytics) as (_ & _ & Hlive).
  split; [apply Hnone; reflexivity|].
  subst w'. rewrite (Hlive 0 Scenario.child eq_refl eq_refl eq_refl). split; reflexivity.
Defined.

(** ** Relaunches *)

(** A relaunch whose [spawn] throws is dropped without a trace in the
    manager: the timer is gone, nothing is stored, no event is emitted
    (in contrast to a failed launch in [initialize]), the attempt
    counters stay, and no further relaunch is armed. *)
Theorem failed_relaunch_is_dropped (os : OS) (reg : list (string * Config))
    (w : World) (k : nat) (d : Z) (id : string) (cfg : Config) (e : string) :
  timers w !! k = Some {| delay := d; task := RetryStart id cfg |} →
  os_spawn os (length (spawned w)) = SpawnThrows e →
  let w' := step os reg w (TimerFire k) in
  w' = set_spawned (λ l, l ++ [id]) (set_timers (delete k) w) ∧
  emitted w' = emitted w ∧ servers w' = servers w ∧ processes w' = processes w ∧
  connectionAttempts w' = connectionAttempts w ∧ heap w' = heap w ∧
  pending_retries id w' + 1 = pending_retries id w.
Proof.
  intros Hk Hos w'.
  assert (Hw' : w' = set_spawned (λ l, l ++ [id]) (set_timers (delete k) w)).
  { subst w'. rewrite (step_timer _ _ _ _ _ Hk). simpl. rewrite exec_catch_all.
    unfold exec. rewrite (startServer_throws _ _ _ _ e) by exact Hos. reflexivity. }
  split; [exact Hw'|]. rewrite Hw'. simpl. repeat split.
  pose proof (count_retries_delete id _ _ _ Hk) as Hd.
  unfold is_retry_of in Hd. simpl in Hd.
  rewrite bool_decide_eq_true_2 in Hd by reflexivity.
  unfold pending_retries. simpl. exact Hd.
Qed.

Lemma failed_relaunch_is_dropped_witness :
  let cfg := Sample.cfg_of Sample.analytics in
  let w := exec (handleServerFailure Sample.analytics cfg) constructor in
  let w' := step Sample.os_throws Sample.registry w (TimerFire 0) in
  attempts Sample.analytics w = 1 ∧
  timers w' = [] ∧ emitted w' = emitted w ∧ getServer Sample.analytics w' = None.
Proof.
  intros cfg w w'.
  assert (Hk : timers w !! 0 =
               Some {| delay := 5000; task := RetryStart Sample.analytics cfg |})
    by reflexivity.
  destruct (failed_relaunch_is_dropped Sample.os_throws Sample.registry w 0 _ _ _
              "ReferenceError: Cannot access 'process' before initialization" Hk eq_refl)
    as (Hw' & He & Hs & _).
  fold w' in Hw', He, Hs.
  split; [reflexivity|]. split; [rewrite Hw'; reflexivity|].
  split; [exact He|]. unfold getServer. rewrite Hs. reflexivity.
Defined.

(** ** The force-kill loop of [shutdown] *)

Lemma kill_eq p sig w :
  kill p sig w = (set_heap (kill_heap p sig) w, Normal ()).
Proof. reflexivity. Qed.

Lemma kill_signalled p sig w h :
  (p = h ∨ signalled_or_dead (heap w) h) →
  signalled_or_dead (heap (exec (kill p sig) w)) h.
Proof.
  intros Hor c' Hc' Hlive. unfold exec in Hc'. rewrite kill_eq in Hc'. simpl in Hc'.
  unfold kill_heap in Hc'.
  destruct (decide (p = h)) as [->|Hne].
  - destruct (heap w !! h) as [c|] eqn:Hh; [|rewrite Hh in Hc'; discriminate].
    destruct (cp_live c) eqn:Hl.
    + rewrite list_lookup_insert_eq in Hc' by (eapply lookup_lt_Some; eauto).
      injection Hc' as <-. reflexivity.
    + rewrite Hh in Hc'. injection Hc' as <-. congruence.
  - destruct Hor as [Heq|Hsod]; [contradiction|].
    apply (Hsod c'); [|exact Hlive].
    destruct (heap w !! p) as [c|]; [|exact Hc'].
    destruct (cp_live c); [|exact Hc'].
    rewrite list_lookup_insert_ne in Hc' by exact Hne. exact Hc'.
Qed.

Lemma force_kill_entry_eq s p w :
  force_kill_entry (s, p) w =
  if negb (from_option killed false (heap w !! p))
  then (set_heap (kill_heap p SIGKILL) w, Normal ())
  else (w, Normal ()).
Proof.
  unfold force_kill_entry, mbind, M_bind, read.
  destruct (negb _); reflexivity.
Qed.

Lemma terminate_loop (l : list (string * nat)) : ∀ w,
  ∃ f, for_each l terminate_entry w = (set_heap f w, Normal ()) ∧
       ∀ h, (h ∈ l.*2 ∨ signalled_or_dead (heap w) h) →
            signalled_or_dead (f (heap w)) h.
Proof.
  induction l as [|[s p] l IH]; intros w.
  - exists (λ H, H). split; [simpl; rewrite set_heap_same; reflexivity|].
    intros h [Hin|Hs]; [inversion Hin | exact Hs].
  - change (for_each ((s, p) :: l) terminate_entry w)
      with (for_each l terminate_entry (set_heap (kill_heap p SIGTERM) w)).
    destruct (IH (set_heap (kill_heap p SIGTERM) w)) as (g & -> & Hg).
    exists (λ H, g (kill_heap p SIGTERM H)). split; [reflexivity|].
    intros h Hor. apply Hg.
    assert (Hk : p = h ∨ signalled_or_dead (heap w) h →
                 signalled_or_dead (heap (set_heap (kill_heap p SIGTERM) w)) h)
      by (intros Hx; apply (kill_signalled p SIGTERM w h Hx)).
    destruct Hor as [Hin|Hs].
    + apply elem_of_cons in Hin as [->|Hin]; [right; apply Hk; left; reflexivity | left; exact Hin].
    + right. apply Hk. right. exact Hs.
Qed.

Lemma for_each_cons {A} (x : A) l (body : A → M unit) w w1 :
  body x w = (w1, Normal ()) → for_each (x :: l) body w = for_each l body w1.
Proof. intros H. simpl. unfold mbind, M_bind. rewrite H. reflexivity. Qed.

Lemma force_kill_loop (l : list (string * nat)) (h : nat) : ∀ w,
  (h ∈ l.*2 → signalled_or_dead (heap w) h) →
  ∃ f, for_each l force_kill_entry w = (set_heap f w, Normal ()) ∧
       f (heap w) !! h = heap w !! h.
Proof.
  induction l as [|[s p] l IH]; intros w Hsod.
  - exists (λ H, H). split; [simpl; rewrite set_heap_same; reflexivity | reflexivity].
  - assert (Hbody : ∃ f1, force_kill_entry (s, p) w = (set_heap f1 w, Normal ()) ∧
                          f1 (heap w) !! h = heap w !! h).
    { rewrite force_kill_entry_eq.
      destruct (negb (from_option killed false (heap w !! p))) eqn:Hk.
      - eexists. split; [reflexivity|]. unfold kill_heap.
        destruct (decide (p = h)) as [->|Hne].
        + destruct (heap w !! h) as [c|] eqn:Hh; [|exact Hh].
          destruct (cp_live c) eqn:Hl; [|exact Hh].
          exfalso. simpl in Hk. apply negb_true_iff in Hk.
          rewrite (Hsod (list_elem_of_here _ _) c Hh Hl) in Hk.
          discriminate Hk.
        + destruct (heap w !! p) as [c|]; [|reflexivity].
          destruct (cp_live c); [|reflexivity].
          apply list_lookup_insert_ne, Hne.
      - exists (λ H, H). split; [rewrite set_heap_same; reflexivity | reflexivity]. }
    destruct Hbody as (f1 & Hb & Hf1).
    rewrite (for_each_cons _ _ _ _ _ Hb).
    destruct (IH (set_heap f1 w)) as (g & -> & Hg).
    { intros Hin c Hc. simpl in Hc. rewrite Hf1 in Hc.
      apply Hsod; [apply list_elem_of_further, Hin | exact Hc]. }
    exists (λ H, g (f1 H)). split; [reflexivity|].
    simpl in Hg. rewrite Hg. exact Hf1.
Qed.

Lemma only_sigterm_refl H : only_sigterm H H.
Proof.
  split; [reflexivity|]. intros h c Hc. exists c, 0. rewrite app_nil_r. auto.
Qed.

Lemma only_sigterm_trans H1 H2 H3 :
  only_sigterm H1 H2 → only_sigterm H2 H3 → only_sigterm H1 H3.
Proof.
  intros [Hl12 H12] [Hl23 H23]. split; [congruence|].
  intros h c3 Hc3.
  destruct (H23 h c3 Hc3) as (c2 & n2 & Hc2 & Hlive2 & Hs2).
  destruct (H12 h c2 Hc2) as (c1 & n1 & Hc1 & Hlive1 & Hs1).
  exists c1, (n1 + n2). split; [exact Hc1|]. split; [congruence|].
  rewrite Hs2, Hs1, <- app_assoc, replicate_add. reflexivity.
Qed.

Lemma kill_heap_only_sigterm p H : only_sigterm H (kill_heap p SIGTERM H).
Proof.
  unfold kill_heap. destruct (H !! p) as [c|] eqn:Hp; [|apply only_sigterm_refl].
  destruct (cp_live c) eqn:Hl; [|apply only_sigterm_refl].
  split; [apply length_insert|].
  intros h c' Hc'. destruct (decide (p = h)) as [->|Hne].
  - rewrite list_lookup_insert_eq in Hc' by (eapply lookup_lt_Some; eauto).
    injection Hc' as <-. exists c, 1. simpl. auto.
  - rewrite list_lookup_insert_ne in Hc' by exact Hne.
    exists c', 0. rewrite app_nil_r. auto.
Qed.

Lemma terminate_loop_only_sigterm (l : list (string * nat)) : ∀ w,
  ∃ f, for_each l terminate_entry w = (set_heap f w, Normal ()) ∧
       only_sigterm (heap w) (f (heap w)).
Proof.
  induction l as [|[s p] l IH]; intros w.
  - exists (λ H, H). split; [simpl; rewrite set_heap_same; reflexivity|].
    apply only_sigterm_refl.
  - change (for_each ((s, p) :: l) terminate_entry w)
      with (for_each l terminate_entry (set_heap (kill_heap p SIGTERM) w)).
    destruct (IH (set_heap (kill_heap p SIGTERM) w)) as (g & -> & Hg).
    exists (λ H, g (kill_heap p SIGTERM H)). split; [reflexivity|].
    eapply only_sigterm_trans; [apply kill_heap_only_sigterm | exact Hg].
Qed.

Lemma shutdown_unfold w :
  shutdown w =
    (set_timers (λ ts, ts ++ [{| delay := 2000; task := ShutdownResume |}])
       (for_each (map_to_list (processes w)) terminate_entry w).1, Normal ()).
Proof.
  unfold shutdown, mbind, M_bind, read, setTimeout, modify.
  change (for_each (map_to_list (processes w))
            (λ '(_, process), kill process SIGTERM) w)
    with (for_each (map_to_list (processes w)) terminate_entry w).
  destruct (terminate_loop (map_to_list (processes w)) w) as (f & -> & _). reflexivity.
Qed.

Lemma force_kill_loop_shape l w :
  ∃ f, for_each l force_kill_entry w = (set_heap f w, Normal ()).
Proof.
  apply for_each_heap_only. intros [s p] w0. rewrite force_kill_entry_eq.
  destruct (negb _); [eauto|]. exists (λ H, H). rewrite set_heap_same. reflexivity.
Qed.

Lemma shutdown_resume_unfold w :
  shutdown_resume w =
    (set_servers (λ _, ∅) (set_processes (λ _, ∅)
       (for_each (map_to_list (processes w)) force_kill_entry w).1), Normal ()).
Proof.
  unfold shutdown_resume, mbind, M_bind, read, modify.
  change (for_each (map_to_list (processes w)) _ w)
    with (for_each (map_to_list (processes w)) force_kill_entry w).
  destruct (force_kill_loop_shape (map_to_list (processes w)) w) as [f ->]. reflexivity.
Qed.

Lemma shutdown_first_half os reg w :
  ∃ f, step os reg w CallShutdown =
         set_timers (λ ts, ts ++ [{| delay := 2000; task := ShutdownResume |}])
           (set_heap f w) ∧
       only_sigterm (heap w) (f (heap w)) ∧
       ∀ h, (h ∈ (map_to_list (processes w)).*2 ∨ signalled_or_dead (heap w) h) →
            signalled_or_dead (f (heap w)) h.
Proof.
  destruct (terminate_loop (map_to_list (processes w)) w) as (f & Hf & Hsod).
  destruct (terminate_loop_only_sigterm (map_to_list (processes w)) w) as (f' & Hf' & Honly).
  assert (Hff : f' (heap w) = f (heap w)).
  { assert (Hx : set_heap f' w = set_heap f w) by congruence.
    exact (f_equal heap Hx). }
  rewrite Hff in Honly.
  exists f. split; [|split; [exact Honly | exact Hsod]].
  simpl. unfold exec. rewrite shutdown_unfold, Hf. reflexivity.
Qed.

(** The force-kill loop of a [shutdown] that nothing interrupts
    changes no heap object. *)
Lemma full_shutdown_heap os reg w :
  heap (step os reg (step os reg w CallShutdown) (TimerFire (length (timers w)))) =
  heap (step os reg w CallShutdown).
Proof.
  destruct (shutdown_first_half os reg w) as (f & Hw1 & _ & Hsod).
  set (w1 := step os reg w CallShutdown) in *.
  assert (Hk : timers w1 !! length (timers w)
               = Some {| delay := 2000; task := ShutdownResume |}).
  { rewrite Hw1. simpl. rewrite lookup_app_r, Nat.sub_diag by lia. reflexivity. }
  rewrite (step_timer os reg w1 _ _ Hk). simpl.
  set (w1' := set_timers (delete (length (timers w))) w1).
  destruct (force_kill_loop_shape (map_to_list (processes w1')) w1') as [g Hg].
  unfold exec. rewrite shutdown_resume_unfold, Hg. simpl.
  apply list_eq. intros h.
  destruct (force_kill_loop (map_to_list (processes w1')) h w1') as (g' & Hg' & Hkeep).
  - intros Hin. subst w1'. rewrite Hw1. simpl. apply Hsod. left.
    rewrite Hw1 in Hin. exact Hin.
  - assert (Hx : set_heap g' w1' = set_heap g w1') by congruence.
    apply (f_equal heap) in Hx. simpl in Hx. rewrite <- Hx.
    subst w1'. rewrite Hw1 in Hkeep |- *. exact Hkeep.
Qed.

(** A [shutdown] that nothing interrupts sends no [SIGKILL]: the first
    loop marks every stored child that is alive as killed, so the second
    loop, after the grace period, skips it, also when it is still alive.
    The heap after the second half is the heap after the first, on
    which every child is as alive as before and has received nothing
    but [SIGTERM]s; both maps are empty. *)
Theorem shutdown_never_force_kills (os : OS) (reg : list (string * Config)) (w : World) :
  let w1 := step os reg w CallShutdown in
  let w2 := step os reg w1 (TimerFire (length (timers w))) in
  heap w2 = heap w1 ∧ only_sigterm (heap w) (heap w2) ∧
  servers w2 = ∅ ∧ processes w2 = ∅ ∧ timers w2 = timers w.
Proof.
  intros w1 w2.
  assert (Hheap : heap w2 = heap w1) by apply full_shutdown_heap.
  destruct (shutdown_first_half os reg w) as (f & Hw1 & Honly & _). fold w1 in Hw1.
  assert (Hk : timers w1 !! length (timers w)
               = Some {| delay := 2000; task := ShutdownResume |}).
  { rewrite Hw1. simpl. rewrite lookup_app_r, Nat.sub_diag by lia. reflexivity. }
  assert (Hw2 : w2 = exec shutdown_resume (set_timers (delete (length (timers w))) w1))
    by (apply (step_timer os reg w1 _ _ Hk)).
  split; [exact Hheap|].
  split; [rewrite Hheap, Hw1; exact Honly|].
  rewrite Hw2. unfold exec.
  destruct (shutdown_resume_eq (set_timers (delete (length (timers w))) w1)) as [g ->].
  simpl. split; [reflexivity|]. split; [reflexivity|].
  rewrite Hw1. simpl. apply delete_last_timer.
Qed.

Lemma shutdown_never_force_kills_example :
  let w := run Sample.os_throws Sample.registry Scenario.holding_child
             [CallShutdown; TimerFire 0] in
  ((λ c, (cp_live c, cp_signals c)) <$> heap w) = [(true, [SIGTERM])] ∧
  processes w = ∅.
Proof. split; reflexivity. Qed.

(** The second half of [shutdown] leaves alone every child that is
    marked as killed or is gone, whatever happened since the first
    half. *)
Theorem force_kill_skips_signalled (w : World) (h : nat) (c : ChildProcess) :
  heap w !! h = Some c → killed c = true ∨ cp_live c = false →
  heap (exec shutdown_resume w) !! h = Some c.
Proof.
  intros Hh Hor. unfold exec. rewrite shutdown_resume_unfold. simpl.
  destruct (force_kill_loop (map_to_list (processes w)) h w) as (f & -> & Hkeep).
  - intros _ c0 Hc0 Hl. rewrite Hh in Hc0. injection Hc0 as <-.
    destruct Hor as [Hk|Hd]; [exact Hk | congruence].
  - simpl. rewrite Hkeep. exact Hh.
Qed.

Lemma force_kill_skips_signalled_witness :
  let w := run Sample.os_throws Sample.registry Scenario.holding_child [CallShutdown] in
  (cp_signals <$> heap (exec shutdown_resume w) !! 0) = Some [SIGTERM] ∧
  (cp_live <$> heap (exec shutdown_resume w) !! 0) = Some true.
Proof.
  intros w.
  assert (Hh : heap w !! 0 = Some {| cp_serverId := Sample.analytics;
                                     cp_config := Sample.cfg_of Sample.analytics;
                                     cp_pid := Some 4000; cp_live := true;
                                     killed := true; cp_signals := [SIGTERM] |})
    by reflexivity.
  rewrite (force_kill_skips_signalled w 0 _ Hh (or_introl eq_refl)).
  split; reflexivity.
Defined.

Lemma force_kill_loop_hits (l : list (string * nat)) (h : nat) (c : ChildProcess) : ∀ w,
  h ∈ l.*2 → heap w !! h = Some c → cp_live c = true → killed c = false →
  ∃ f, for_each l force_kill_entry w = (set_heap f w, Normal ()) ∧
       f (heap w) !! h =
         Some {| cp_serverId := cp_serverId c; cp_config := cp_config c;
                 cp_pid := cp_pid c; cp_live := true; killed := true;
                 cp_signals := cp_signals c ++ [SIGKILL] |}.
Proof.
  induction l as [|[s p] l IH]; intros w Hin Hh Hl Hk; [inversion Hin|].
  destruct (decide (p = h)) as [->|Hne].
  - assert (Hb : force_kill_entry (s, h) w = (set_heap (kill_heap h SIGKILL) w, Normal ())).
    { rewrite force_kill_entry_eq, Hh. simpl. rewrite Hk. reflexivity. }
    rewrite (for_each_cons _ _ _ _ _ Hb).
    assert (Hh1 : heap (set_heap (kill_heap h SIGKILL) w) !! h =
                  Some {| cp_serverId := cp_serverId c; cp_config := cp_config c;
                          cp_pid := cp_pid c; cp_live := true; killed := true;
                          cp_signals := cp_signals c ++ [SIGKILL] |}).
    { simpl. unfold kill_heap. rewrite Hh, Hl.
      apply list_lookup_insert_eq. eapply lookup_lt_Some; eauto. }
    destruct (force_kill_loop l h (set_heap (kill_heap h SIGKILL) w)) as (g & -> & Hg).
    { intros _ c0 Hc0 _. rewrite Hh1 in Hc0. injection Hc0 as <-. reflexivity. }
    exists (λ H, g (kill_heap h SIGKILL H)). split; [reflexivity|].
    simpl in Hg, Hh1. rewrite Hg. exact Hh1.
  - apply elem_of_cons in Hin as [Heq|Hin]; [simpl in Heq; congruence|].
    assert (Hb : ∃ f1, force_kill_entry (s, p) w = (set_heap f1 w, Normal ()) ∧
                       f1 (heap w) !! h = heap w !! h).
    { rewrite force_kill_entry_eq. destruct (negb _).
      - eexists. split; [reflexivity|]. unfold kill_heap.
        destruct (heap w !! p) as [cp|]; [|reflexivity].
        destruct (cp_live cp); [|reflexivity].
        apply list_lookup_insert_ne, Hne.
      - exists (λ H, H). split; [rewrite set_heap_same; reflexivity | reflexivity]. }
    destruct Hb as (f1 & Hb & Hf1).
    rewrite (for_each_cons _ _ _ _ _ Hb).
    destruct (IH (set_heap f1 w) Hin) as (g & -> & Hg); try assumption.
    { simpl. rewrite Hf1. exact Hh. }
    exists (λ H, g (f1 H)). split; [reflexivity | exact Hg].
Qed.

(** The second half of [shutdown] sends one [SIGKILL] to a stored
    child that is alive and not marked as killed, for instance one that
    was started during the grace period, and marks it as killed. *)
Theorem force_kill_reaches_unsignalled (w : World) (id : string) (h : nat)
    (c : ChildProcess) :
  processes w !! id = Some h → heap w !! h = Some c →
  cp_live c = true → killed c = false →
  heap (exec shutdown_resume w) !! h =
    Some {| cp_serverId := cp_serverId c; cp_config := cp_config c;
            cp_pid := cp_pid c; cp_live := true; killed := true;
            cp_signals := cp_signals c ++ [SIGKILL] |}.
Proof.
  intros Hp Hh Hl Hk. unfold exec. rewrite shutdown_resume_unfold. simpl.
  destruct (force_kill_loop_hits (map_to_list (processes w)) h c w) as (f & -> & Hf);
    try assumption.
  apply list_elem_of_fmap. exists (id, h). split; [reflexivity|].
  apply elem_of_map_to_list, Hp.
Qed.

Lemma force_kill_reaches_unsignalled_witness :
  let w := Scenario.holding_child in
  (cp_signals <$> heap (exec shutdown_resume w) !! 0) = Some [SIGKILL] ∧
  (killed <$> heap (exec shutdown_resume w) !! 0) = Some true.
Proof.
  intros w.
  pose proof (force_kill_reaches_unsignalled w Sample.analytics 0 Scenario.child
                eq_refl eq_refl eq_refl eq_refl) as H1.
  rewrite H1. split; reflexivity.
Defined.

(** ** The attempt counters *)

Lemma attempts_same id w w' :
  connectionAttempts w' = connectionAttempts w → attempts id w' = attempts id w.
Proof. intros H. unfold attempts. rewrite H. reflexivity. Qed.

Lemma handleServerFailure_attempts id id' cfg w :
  let w' := exec (handleServerFailure id' cfg) w in
  maxRetries w' = maxRetries w ∧
  (attempts id w' = attempts id w ∨
   (attempts id w < maxRetries w ∧ attempts id w' = attempts id w + 1)).
Proof.
  intros w'. subst w'. unfold exec.
  destruct (decide (attempts id' w < maxRetries w)) as [Hlt|Hge].
  - rewrite handleServerFailure_retry by exact Hlt. simpl. split; [reflexivity|].
    rewrite attempts_after_retry. destruct (decide (id' = id)) as [->|Hne]; auto.
  - rewrite handleServerFailure_exhausted by lia. split; [reflexivity|]. left. reflexivity.
Qed.

Lemma step_attempts os reg w i id :
  maxRetries (step os reg w i) = maxRetries w ∧
  (attempts id (step os reg w i) = attempts id w ∨
   (attempts id w < maxRetries w ∧ attempts id (step os reg w i) = attempts id w + 1)).
Proof.
  destruct i as [| id' cfg | id' | | h e | h code sig | k].
  - simpl. destruct (initialize_eq os reg w) as (w' & Hw' & _ & _ & _ & Hc & Hm).
    unfold exec. rewrite Hw'. simpl. split; [exact Hm|]. left. apply attempts_same, Hc.
  - simpl. destruct (startServer_effect os id id' cfg w) as (_ & _ & Hc & Hm & _).
    split; [exact Hm|]. left. apply attempts_same, Hc.
  - simpl. unfold exec. destruct (stopServer_heap_only id' w) as [f ->].
    split; [reflexivity|]. left. reflexivity.
  - simpl. unfold exec. destruct (shutdown_eq w) as [f ->].
    split; [reflexivity|]. left. reflexivity.
  - destruct (heap w !! h) as [c|] eqn:Hh.
    + rewrite (step_error _ _ _ _ c) by exact Hh.
      apply (handleServerFailure_attempts id (cp_serverId c) (cp_config c)
               (set_emitted (λ es, es ++ [serverError (cp_serverId c) e]) w)).
    + simpl. rewrite Hh. split; [reflexivity|]. left. reflexivity.
  - destruct (heap w !! h) as [c|] eqn:Hh;
      [|simpl; rewrite Hh; split; [reflexivity|]; left; reflexivity].
    destruct (cp_live c) eqn:Hl;
      [|simpl; rewrite Hh, Hl; split; [reflexivity|]; left; reflexivity].
    rewrite (step_exit _ _ _ _ c) by assumption. rewrite (exec_reap _ _ c) by exact Hh.
    unfold exec. destruct (abnormal code) eqn:Hab.
    + rewrite on_exit_abnormal by exact Hab.
      match goal with
      | |- context [handleServerFailure _ _ ?w0] =>
          exact (handleServerFailure_attempts id (cp_serverId c) (cp_config c) w0)
      end.
    + rewrite on_exit_quiet by exact Hab. split; [reflexivity|]. left. reflexivity.
  - destruct (timers w !! k) as [[d [id' cfg|]]|] eqn:Hk.
    + rewrite (step_timer _ _ _ _ _ Hk). simpl. rewrite exec_catch_all.
      destruct (startServer_effect os id id' cfg (set_timers (delete k) w))
        as (_ & _ & Hc & Hm & _).
      split; [exact Hm|]. left. apply (attempts_same id w _ Hc).
    + rewrite (step_timer _ _ _ _ _ Hk). simpl. unfold exec.
      destruct (shutdown_resume_eq (set_timers (delete k) w)) as [f ->].
      split; [reflexivity|]. left. reflexivity.
    + simpl. rewrite Hk. split; [reflexivity|]. left. reflexivity.
Qed.

Lemma run_attempts os reg id ins : ∀ w,
  attempts id w ≤ maxRetries w →
  maxRetries (run os reg w ins) = maxRetries w ∧
  attempts id w ≤ attempts id (run os reg w ins) ∧
  attempts id (run os reg w ins) ≤ maxRetries w.
Proof.
  induction ins as [|i ins IH]; intros w Hle; simpl.
  - split; [reflexivity|]. split; [apply Nat.le_refl | exact Hle].
  - destruct (step_attempts os reg w i id) as [Hm Hor].
    destruct (IH (step os reg w i)) as (Hm' & Hlo & Hhi); [destruct Hor as [->|[? ->]]; lia|].
    unfold run in *. rewrite Hm', Hm in *. split; [reflexivity|].
    destruct Hor as [Heq|[? Heq]]; rewrite Heq in Hlo; lia.
Qed.

(** No operation of the manager lowers or resets an attempt counter,
    and no counter exceeds [maxRetries], which stays 3: on a manager
    that started new, the counter of a worker only grows, through any
    sequence of calls, events and timers (a relaunch that succeeds, a
    clean exit, [shutdown] and [initialize] all keep it). *)
Theorem attempts_never_reset (os : OS) (reg : list (string * Config))
    (before after : list Input) (id : string) :
  let w1 := run os reg constructor before in
  let w2 := run os reg w1 after in
  attempts id w1 ≤ attempts id w2 ∧ attempts id w2 ≤ 3 ∧ maxRetries w2 = 3.
Proof.
  intros w1 w2.
  destruct (run_attempts os reg id before constructor) as (Hm1 & _ & Hhi1).
  { unfold attempts. simpl. rewrite lookup_empty. simpl. lia. }
  fold w1 in Hm1, Hhi1. change (maxRetries constructor) with 3 in *.
  destruct (run_attempts os reg id after w1) as (Hm2 & Hlo2 & Hhi2); [lia|].
  fold w2 in Hm2, Hlo2, Hhi2. lia.
Qed.

(** ** What the stored records say *)













(** ** The status endpoint *)




(** ** The environment and [initialize] *)

Lemma custom_servers_enabled_ids host :
  enabled_ids (CUSTOM_MCP_SERVERS host) =
  (if env_not_false host "ENABLE_HYPNOSIS_MCP" then ["bambisleep-hypnosis-mcp"] else []) ++
  (if env_not_false host "ENABLE_PERSONALITY_MCP" then ["aigf-personality-mcp"] else []) ++
  (if env_not_false host "ENABLE_TRIGGER_SYSTEM_MCP" then ["trigger-system-mcp"] else []) ++
  (if env_not_false host "ENABLE_ANALYTICS_MCP" then ["chat-analytics-mcp"] else []).
Proof.
  unfold CUSTOM_MCP_SERVERS. rewrite !enabled_ids_cons. simpl.
  destruct (env_not_false host "ENABLE_HYPNOSIS_MCP"),
           (env_not_false host "ENABLE_PERSONALITY_MCP"),
           (env_not_false host "ENABLE_TRIGGER_SYSTEM_MCP"),
           (env_not_false host "ENABLE_ANALYTICS_MCP"); reflexivity.
Qed.

Lemma env_not_false_decide host var :
  env_not_false host var =
  if decide (process_env host !! var = Some "false") then false else true.
Proof.
  unfold env_not_false. destruct (decide _) as [Heq|Hne].
  - apply bool_decide_eq_false_2. intros Hn. exact (Hn Heq).
  - apply bool_decide_eq_true_2. exact Hne.
Qed.

(** Which servers [initialize] launches is decided by the environment
    alone: a server is skipped exactly when its [ENABLE_..._MCP]
    variable is the string [false]; with any other value, or without
    the variable, [spawn] is evaluated once for it, whatever the state
    of the manager.  The four ids are distinct. *)
Theorem environment_decides_launch (os : OS) (host : Host) (w : World)
    (var id : string) :
  (var, id) ∈ enable_variables →
  let reg := CUSTOM_MCP_SERVERS host in
  NoDup reg.*1 ∧
  spawn_count id (exec (initialize os reg) w) =
    spawn_count id w +
    (if decide (process_env host !! var = Some "false") then 0 else 1).
Proof.
  intros Hin reg. split.
  { apply (bool_decide_unpack _). vm_compute. exact I. }
  destruct (initialize_eq os reg w) as (w' & Hw' & Hsp & _).
  unfold exec. rewrite Hw'. simpl.
  unfold spawn_count. rewrite Hsp, count_id_app_list. f_equal.
  subst reg. rewrite custom_servers_enabled_ids.
  unfold enable_variables in Hin.
  repeat (apply elem_of_cons in Hin as [Hin|Hin];
          [injection Hin as -> ->;
           match goal with
           | |- _ = (if decide (process_env host !! ?v = _) then _ else _) =>
               rewrite (env_not_false_decide host v);
               destruct (decide (process_env host !! v = Some "false"))
           end;
           repeat (match goal with
                   | |- context [env_not_false host ?v] => destruct (env_not_false host v)
                   end);
           reflexivity|]).
  inversion Hin.
Qed.

Lemma environment_decides_launch_witness :
  let w := exec (initialize Sample.os_throws (CUSTOM_MCP_SERVERS Sample.host)) constructor in
  spawn_count "bambisleep-hypnosis-mcp" w = 0 ∧
  spawn_count "chat-analytics-mcp" w = 1.
Proof.
  intros w.
  assert (H1 : ("ENABLE_HYPNOSIS_MCP", "bambisleep-hypnosis-mcp") ∈ enable_variables)
    by (apply (bool_decide_unpack _); vm_compute; exact I).
  assert (H2 : ("ENABLE_ANALYTICS_MCP", "chat-analytics-mcp") ∈ enable_variables)
    by (apply (bool_decide_unpack _); vm_compute; exact I).
  destruct (environment_decides_launch Sample.os_throws Sample.host constructor _ _ H1)
    as [_ Ha].
  destruct (environment_decides_launch Sample.os_throws Sample.host constructor _ _ H2)
    as [_ Hb].
  fold w in Ha, Hb. split; [rewrite Ha | rewrite Hb]; reflexivity.
Defined.


(** ** Where the evaluations of [spawn] come from *)

Lemma step_account os reg id w i :
  attempts id w ≤ maxRetries w →
  spawn_count id (step os reg w i) + pending_retries id (step os reg w i)
    + attempts id w =
  spawn_count id w + pending_retries id w + attempts id (step os reg w i)
    + outside_starts reg id [i].
Proof.
  intros Hle.
  destruct (external_start id i) eqn:Hext.
  - destruct i as [| id' cfg | id' | | h e | h code sig | k]; simpl in Hext; try discriminate.
    + simpl. destruct (initialize_eq os reg w) as (w' & Hw' & Hs & _ & Ht & Hc & _).
      unfold exec. rewrite Hw'. simpl.
      unfold spawn_count, pending_retries. rewrite Hs, Ht, count_id_app_list.
      rewrite (attempts_same id w w' Hc). unfold outside_starts. simpl. lia.
    + apply bool_decide_eq_true_1 in Hext. subst id'. simpl.
      destruct (startServer_effect os id id cfg w) as (Hs & Ht & Hc & _).
      rewrite (potential_spawn id id _ w Hs). unfold pending_retries. rewrite Ht.
      rewrite (attempts_same id w _ Hc). unfold outside_starts. simpl.
      destruct (decide (id = id)); [lia | contradiction].
  - destruct (step_potential os reg id w i Hext) as (Hp & Hm & _ & _).
    destruct (step_attempts os reg w i id) as [_ Hor].
    assert (H0 : outside_starts reg id [i] = 0).
    { unfold outside_starts. simpl.
      destruct i as [| id' cfg | | | | |]; simpl in Hext; try discriminate; try reflexivity.
      apply bool_decide_eq_false_1 in Hext. destruct (decide (id' = id)); [contradiction|].
      reflexivity. }
    rewrite H0. unfold potential, attempts_left in Hp. rewrite Hm in Hp.
    destruct Hor as [Heq|[Hlt Heq]]; rewrite Heq in *; lia.
Qed.

Lemma outside_starts_cons reg id i ins :
  outside_starts reg id (i :: ins) = outside_starts reg id [i] + outside_starts reg id ins.
Proof. unfold outside_starts. simpl. rewrite Nat.add_0_r. reflexivity. Qed.

Lemma run_account os reg id ins : ∀ w,
  attempts id w ≤ maxRetries w →
  spawn_count id (run os reg w ins) + pending_retries id (run os reg w ins)
    + attempts id w =
  spawn_count id w + pending_retries id w + attempts id (run os reg w ins)
    + outside_starts reg id ins.
Proof.
  induction ins as [|i ins IH]; intros w Hle.
  - unfold outside_starts. simpl. lia.
  - change (run os reg w (i :: ins)) with (run os reg (step os reg w i) ins).
    pose proof (step_account os reg id w i Hle) as H1.
    destruct (step_attempts os reg w i id) as [Hm Hor].
    assert (Hle1 : attempts id (step os reg w i) ≤ maxRetries (step os reg w i))
      by (rewrite Hm; destruct Hor as [->|[? ->]]; lia).
    pose proof (IH _ Hle1) as H2.
    rewrite outside_starts_cons. lia.
Qed.

Lemma attempts_never_reset_aux os reg inputs id :
  attempts id (run os reg constructor inputs) ≤ 3 ∧
  maxRetries (run os reg constructor inputs) = 3.
Proof.
  destruct (run_attempts os reg id inputs constructor) as (Hm & _ & Hhi).
  { unfold attempts. simpl. rewrite lookup_empty. simpl. lia. }
  split; [exact Hhi | exact Hm].
Qed.

(** On a manager that started new, every evaluation of [spawn] for a
    worker is a start from outside ([startServer], or [initialize] for
    an enabled definition) or the firing of a relaunch that used up an
    attempt: the evaluations made plus the relaunches still pending are
    the outside starts plus the attempts used.  So over the whole life
    of the manager a worker is relaunched at most 3 times. *)
Theorem spawn_accounting (os : OS) (reg : list (string * Config))
    (inputs : list Input) (id : string) :
  let w := run os reg constructor inputs in
  spawn_count id w + pending_retries id w = outside_starts reg id inputs + attempts id w ∧
  spawn_count id w ≤ outside_starts reg id inputs + 3.
Proof.
  intros w.
  assert (H0 : attempts id constructor ≤ maxRetries constructor).
  { unfold attempts. simpl. rewrite lookup_empty. simpl. lia. }
  pose proof (run_account os reg id inputs constructor H0) as Hacc. fold w in Hacc.
  destruct (attempts_never_reset_aux os reg inputs id) as [Hhi _]. fold w in Hhi.
  assert (Hz : attempts id constructor = 0)
    by (unfold attempts; simpl; rewrite lookup_empty; reflexivity).
  rewrite Hz in Hacc.
  change (spawn_count id constructor) with 0 in Hacc.
  change (pending_retries id constructor) with 0 in Hacc.
  lia.
Qed.

Lemma spawn_accounting_example :
  let ins := [CallInitialize;
              CallStartServer Sample.analytics (Sample.cfg_of Sample.analytics)] in
  let w := run Sample.os_throws Sample.registry constructor ins in
  outside_starts Sample.registry Sample.analytics ins = 2 ∧
  spawn_count Sample.analytics w = 2 ∧ pending_retries Sample.analytics w = 0 ∧
  attempts Sample.analytics w = 0.
Proof. repeat split; reflexivity. Qed.

(** ** [spawn] as it is written *)

Lemma launch_events_failed os reg : ∀ n ev,
  (∀ n, ∃ e, os_spawn os n = SpawnThrows e) →
  ev ∈ launch_events os n reg → ∃ id e, ev = serverFailed id e.
Proof.
  induction reg as [|[id cfg] reg IH]; intros n ev Hos Hin; simpl in Hin.
  - inversion Hin.
  - destruct (enabled cfg); [|exact (IH n ev Hos Hin)].
    apply elem_of_cons in Hin as [->|Hin]; [|exact (IH (S n) ev Hos Hin)].
    unfold launch_event. destruct (Hos n) as [e ->]. eauto.
Qed.

Lemma step_never_launched os reg w i :
  (∀ n, ∃ e, os_spawn os n = SpawnThrows e) →
  never_launched w → never_launched (step os reg w i).
Proof.
  intros Hos (Hh & Hs & Hp & Hc & Hr & He).
  destruct i as [| id' cfg | id' | | h e | h code sig | k]; simpl.
  - destruct (initialize_eq os reg w) as (w' & Hw' & _ & Hem & Ht & Hca & _).
    assert (Hx : exec (initialize os reg) w = w') by (unfold exec; rewrite Hw'; reflexivity).
    assert (Hmaps : heap (exec (initialize os reg) w) = [] ∧
                    servers (exec (initialize os reg) w) = ∅ ∧
                    processes (exec (initialize os reg) w) = ∅).
    { apply (initialize_preserves os (λ w, heap w = [] ∧ servers w = ∅ ∧ processes w = ∅)).
      - intros id cfg w0 H0. destruct (Hos (length (spawned w0))) as [e He0].
        unfold exec. rewrite (startServer_throws _ _ _ _ e) by exact He0. exact H0.
      - intros e w0 H0. exact H0.
      - auto. }
    rewrite Hx in *. destruct Hmaps as (H1 & H2 & H3).
    split; [exact H1|]. split; [exact H2|]. split; [exact H3|].
    split; [rewrite Hca; exact Hc|]. split.
    + intros id. unfold pending_retries. rewrite Ht. apply Hr.
    + intros ev Hin. rewrite Hem in Hin. apply elem_of_app in Hin as [Hin|Hin].
      * apply He, Hin.
      * eapply launch_events_failed; eauto.
  - destruct (Hos (length (spawned w))) as [e He0].
    unfold exec. rewrite (startServer_throws _ _ _ _ e) by exact He0.
    repeat split; assumption.
  - unfold exec, stopServer. unfold_M. rewrite Hp, lookup_empty.
    repeat split; assumption.
  - unfold exec. rewrite shutdown_idle by exact Hp.
    split; [exact Hh|]. split; [exact Hs|]. split; [exact Hp|]. split; [exact Hc|].
    split; [|exact He].
    intros id. unfold pending_retries. simpl. rewrite count_retries_app. simpl.
    specialize (Hr id). unfold pending_retries in Hr. lia.
  - rewrite Hh. simpl. repeat split; assumption.
  - rewrite Hh. simpl. repeat split; assumption.
  - destruct (timers w !! k) as [[d [id' cfg|]]|] eqn:Hk; [| |repeat split; assumption].
    + exfalso. pose proof (count_retries_delete id' _ _ _ Hk) as Hdel.
      unfold is_retry_of in Hdel. simpl in Hdel.
      rewrite bool_decide_eq_true_2 in Hdel by reflexivity.
      specialize (Hr id'). unfold pending_retries in Hr. lia.
    + simpl. unfold exec. rewrite shutdown_resume_idle by exact Hp.
      split; [exact Hh|]. split; [reflexivity|]. split; [reflexivity|].
      split; [exact Hc|]. split; [|exact He].
      intros id. pose proof (count_retries_delete id _ _ _ Hk) as Hdel.
      unfold is_retry_of in Hdel. simpl in Hdel.
      specialize (Hr id). unfold pending_retries in *. simpl. lia.
Qed.

(** With the [spawn] call as it is written, every launch throws before
    a child exists.  Whatever is called on a new manager and whatever
    timer fires, no child process is ever created, both maps stay
    empty, no failure is ever counted and no relaunch is armed; the
    only events emitted are [serverFailed]; [getServerStatus] lists
    every server as stopped and the status endpoint counts none as
    running. *)
Theorem nothing_runs_when_spawn_throws (os : OS) (reg : list (string * Config))
    (inputs : list Input) :
  (∀ n, ∃ e, os_spawn os n = SpawnThrows e) →
  let w := run os reg constructor inputs in
  never_launched w ∧
  (∀ e, e ∈ getServerStatus reg w → entry_status e = "stopped" ∧ entry_pid e = pid_null) ∧
  status_running (mcp_status reg w) = 0.
Proof.
  intros Hos w.
  assert (Hn : never_launched w).
  { subst w.
    assert (H0 : never_launched constructor).
    { repeat split. intros ev Hin. inversion Hin. }
    revert H0. generalize constructor.
    induction inputs as [|i ins IH]; intros w0 H0; simpl; [exact H0|].
    apply IH, step_never_launched; assumption. }
  split; [exact Hn|].
  destruct Hn as (_ & Hs & _).
  assert (Hst : ∀ e, e ∈ getServerStatus reg w →
                     entry_status e = "stopped" ∧ entry_pid e = pid_null).
  { intros e Hin. unfold getServerStatus in Hin.
    apply list_elem_of_fmap in Hin as [[id cfg] [-> _]]. simpl.
    rewrite Hs, lookup_empty. split; reflexivity. }
  split; [exact Hst|].
  unfold mcp_status. simpl.
  destruct (filter (λ s, entry_status s = "running") (getServerStatus reg w)) as [|e l] eqn:Hf;
    [reflexivity|exfalso].
  assert (Hin : e ∈ filter (λ s, entry_status s = "running") (getServerStatus reg w))
    by (rewrite Hf; apply list_elem_of_here).
  apply list_elem_of_filter in Hin as [Hrun Hin].
  destruct (Hst e Hin) as [Hstop _]. rewrite Hstop in Hrun. discriminate Hrun.
Qed.

Lemma nothing_runs_when_spawn_throws_witness :
  let w := run Sample.os_throws Sample.registry constructor
             [CallInitialize;
              CallStartServer Sample.analytics (Sample.cfg_of Sample.analytics);
              CallStopServer Sample.analytics; CallShutdown; TimerFire 0] in
  heap w = [] ∧ servers w = ∅ ∧ timers w = [] ∧
  length (spawned w) = 4 ∧ length (emitted w) = 3 ∧
  status_running (mcp_status Sample.registry w) = 0.
Proof.
  intros w.
  assert (Hos : ∀ n, ∃ e, os_spawn Sample.os_throws n = SpawnThrows e)
    by (intros n; eexists; reflexivity).
  destruct (nothing_runs_when_spawn_throws Sample.os_throws Sample.registry
              [CallInitialize;
               CallStartServer Sample.analytics (Sample.cfg_of Sample.analytics);
               CallStopServer Sample.analytics; CallShutdown; TimerFire 0] Hos)
    as ((Hh & Hs & _) & _ & Hr).
  fold w in Hh, Hs, Hr.
  split; [exact Hh|]. split; [exact Hs|]. split; [reflexivity|].
  split; [reflexivity|]. split; [reflexivity | exact Hr].
Defined.

(** ** The bound on relaunches *)




